(** * Verification of the Chicago preprocessing script (preprocessing.py)

    A shallow embedding of [point_to_coords] and [process_chicago] together
    with the fragments of the Python runtime they rely on: [str.split],
    [str.replace], [str.isdigit], [int()], [float()], [re.findall] for the
    pattern "[-.\d]+", true division of integers, [str()] of integers and
    floats, dictionaries keyed by integers and [sorted].

    Conventions of the model.
    - Text is a list of 8-bit characters.  The input files are taken to be
      ASCII text: a character is a digit exactly when it is one of 0..9 and
      white space is the ASCII white space recognised by Python.
    - A Python [int] is a [Z]; a Python [float] is an IEEE-754 binary64 value
      represented by [spec_float] with precision 53 and maximal exponent 1024.
    - An uncaught exception aborts the run before any output file is opened,
      so a run is a value of [result (popfile * facfile)].
    - [int()] is modelled without the optional limit on the number of digits
      introduced by later interpreter versions. *)

From Stdlib Require Import ZArith Ascii String List Lia.
From Stdlib Require Import Floats.SpecFloat DecimalN DecimalPos DecimalFacts.
From stdpp Require Import base option list strings gmap sorting.

Set Warnings "-notation-for-abbreviation".
Local Open Scope Z_scope.

(* ===================================================================== *)
(** ** Text *)
(* ===================================================================== *)

Notation str := (list ascii).

Definition TAB : ascii := ascii_of_nat 9.
Definition NL : ascii := ascii_of_nat 10.
Definition CR : ascii := ascii_of_nat 13.
Definition QUOTE : ascii := ascii_of_nat 34.

(** A string literal as a list of characters. *)
Definition txt (s : string) : str := list_ascii_of_string s.

(** [c.isdigit()] for an ASCII character. *)
Definition isdigit (c : ascii) : bool :=
  let n := nat_of_ascii c in (48 <=? n)%nat && (n <=? 57)%nat.

Definition digit_val (c : ascii) : Z := Z.of_nat (nat_of_ascii c) - 48.

(** White space stripped by [int()] from an ASCII text: tab, line feed,
    vertical tab, form feed, carriage return and the space. *)
Definition isspace (c : ascii) : bool :=
  let n := nat_of_ascii c in
  ((9 <=? n)%nat && (n <=? 13)%nat) || (n =? 32)%nat.

Definition ascii_eqb (a b : ascii) : bool := Ascii.eqb a b.

(* ===================================================================== *)
(** ** Exceptions *)
(* ===================================================================== *)

Inductive PyErr : Type :=
| ValueError
| IndexError
| KeyError
| OverflowError
| ZeroDivisionError.

Inductive result (A : Type) : Type :=
| Ok (a : A)
| Err (e : PyErr).
Arguments Ok {A} a.
Arguments Err {A} e.

Definition bind {A B} (r : result A) (k : A -> result B) : result B :=
  match r with
  | Ok a => k a
  | Err e => Err e
  end.

(** The exception monad, with stdpp's notation [x ← c; k]. *)
#[global] Instance result_ret : MRet result := fun A a => Ok a.
#[global] Instance result_bind : MBind result := fun A B k r => bind r k.

(** Subscripting a list: [l[i]] raises IndexError out of range. *)
Definition subscript {A} (l : list A) (i : nat) : result A :=
  match l !! i with
  | Some x => Ok x
  | None => Err IndexError
  end.

(** [l[-1]]. *)
Definition subscript_last {A} (l : list A) : result A :=
  match last l with
  | Some x => Ok x
  | None => Err IndexError
  end.

(* ===================================================================== *)
(** ** String methods *)
(* ===================================================================== *)

(** [s.split(sep)] for a one-character separator. *)
Fixpoint split (sep : ascii) (s : str) : list str :=
  match s with
  | [] => [[]]
  | c :: r =>
      if ascii_eqb c sep then [] :: split sep r
      else match split sep r with
           | f :: fs => (c :: f) :: fs
           | [] => [[c]]
           end
  end.

(** [s.replace(c, '')]. *)
Definition remove_char (c : ascii) (s : str) : str :=
  List.filter (fun d => negb (ascii_eqb d c)) s.

(** Text-mode reading translates "\r\n" and "\r" to "\n". *)
Fixpoint universal_newlines (s : str) : str :=
  match s with
  | [] => []
  | c :: r =>
      if ascii_eqb c CR then
        match r with
        | d :: r' => if ascii_eqb d NL then NL :: universal_newlines r'
                     else NL :: universal_newlines r
        | [] => [NL]
        end
      else c :: universal_newlines r
  end.

(** Iterating over a text: each line keeps its terminating "\n"; a last
    line without terminator is yielded too; no line is empty. *)
Fixpoint lines_keepends (s : str) : list str :=
  match s with
  | [] => []
  | c :: r =>
      if ascii_eqb c NL then [c] :: lines_keepends r
      else match lines_keepends r with
           | l :: ls => match r with
                        | [] => [[c]]
                        | _ :: _ => (c :: l) :: ls
                        end
           | [] => [[c]]
           end
  end.

(** The lines delivered by [for line in f] for a file opened in text mode. *)
Definition file_lines (content : str) : list str :=
  lines_keepends (universal_newlines content).

(* ===================================================================== *)
(** ** int() *)
(* ===================================================================== *)

Fixpoint lstrip (s : str) : str :=
  match s with
  | c :: r => if isspace c then lstrip r else s
  | [] => []
  end.

Definition strip (s : str) : str := rev (lstrip (rev (lstrip s))).

(** Digits with single underscores allowed between two digits.
    [prev] tells whether the previous character was a digit. *)
Fixpoint int_digits (acc : Z) (prev : bool) (s : str) : result Z :=
  match s with
  | [] => if prev then Ok acc else Err ValueError
  | c :: r =>
      if isdigit c then int_digits (10 * acc + digit_val c) true r
      else if ascii_eqb c "_"%char then
             if prev then int_digits acc false r else Err ValueError
      else Err ValueError
  end.

(** [int(s)] in base 10: surrounding white space, an optional sign, digits. *)
Definition py_int (s : str) : result Z :=
  match strip s with
  | c :: r =>
      if ascii_eqb c "-"%char then n ← int_digits 0 false r; Ok (- n)
      else if ascii_eqb c "+"%char then int_digits 0 false r
      else int_digits 0 false (c :: r)
  | [] => Err ValueError
  end.

(* ===================================================================== *)
(** ** re.findall("[-.\d]+", s) *)
(* ===================================================================== *)

(** The character class [-.\d]. *)
Definition num_char (c : ascii) : bool :=
  ascii_eqb c "-"%char || ascii_eqb c "."%char || isdigit c.

(** All maximal runs of class characters, left to right. *)
Fixpoint findall_num (s : str) : list str :=
  match s with
  | [] => []
  | c :: r =>
      if num_char c then
        match r with
        | d :: _ =>
            if num_char d then
              match findall_num r with
              | t :: ts => (c :: t) :: ts
              | [] => [[c]]
              end
            else [c] :: findall_num r
        | [] => [[c]]
        end
      else findall_num r
  end.

(* ===================================================================== *)
(** ** str() of an integer *)
(* ===================================================================== *)

Fixpoint uint_chars (d : Decimal.uint) : str :=
  match d with
  | Decimal.Nil => []
  | Decimal.D0 d => "0"%char :: uint_chars d
  | Decimal.D1 d => "1"%char :: uint_chars d
  | Decimal.D2 d => "2"%char :: uint_chars d
  | Decimal.D3 d => "3"%char :: uint_chars d
  | Decimal.D4 d => "4"%char :: uint_chars d
  | Decimal.D5 d => "5"%char :: uint_chars d
  | Decimal.D6 d => "6"%char :: uint_chars d
  | Decimal.D7 d => "7"%char :: uint_chars d
  | Decimal.D8 d => "8"%char :: uint_chars d
  | Decimal.D9 d => "9"%char :: uint_chars d
  end.

(** Decimal digits of a positive number, most significant first. *)
Definition pos_chars (p : positive) : str := uint_chars (Pos.to_uint p).

(** [str(n)] for an integer [n]. *)
Definition str_of_Z (z : Z) : str :=
  match z with
  | Z0 => ["0"%char]
  | Zpos p => pos_chars p
  | Zneg p => "-"%char :: pos_chars p
  end.

(* ===================================================================== *)
(** ** Floats: binary64 *)
(* ===================================================================== *)

Notation float := spec_float.

Definition prec : Z := 53.
Definition emax : Z := 1024.

(** The binary64 value nearest to [p / q] (ties to even) with sign [neg],
    for [0 <= p] and [0 < q]; an infinity when the quotient is out of
    range. *)
Definition b64_of_ratio (neg : bool) (p q : Z) : float :=
  match p, q with
  | Z0, _ => S754_zero neg
  | Zpos p', Zpos q' =>
      SFdiv prec emax (S754_finite neg p' 0) (S754_finite false q' 0)
  | _, _ => S754_nan
  end.

(** Leading digits of a text and what follows them. *)
Fixpoint span_digits (s : str) : str * str :=
  match s with
  | c :: r =>
      if isdigit c then let '(d, t) := span_digits r in (c :: d, t)
      else ([], s)
  | [] => ([], [])
  end.

Definition digits_value (s : str) : Z :=
  fold_left (fun acc c => 10 * acc + digit_val c) s 0.

(** [float(s)] for a text drawn from the class [-.\d], the only texts
    [point_to_coords] passes to it: an optional minus sign, digits with
    an optional decimal point, at least one digit.  Anything else raises
    ValueError.  The value is the correctly rounded binary64. *)
Definition py_float (s : str) : result float :=
  let '(neg, body) :=
    match s with
    | c :: r => if ascii_eqb c "-"%char then (true, r) else (false, s)
    | [] => (false, [])
    end in
  let '(ip, rest) := span_digits body in
  let '(fp, rest') :=
    match rest with
    | c :: r => if ascii_eqb c "."%char then span_digits r else ([], rest)
    | [] => ([], [])
    end in
  match rest', ip ++ fp with
  | [], _ :: _ =>
      Ok (b64_of_ratio neg (digits_value (ip ++ fp))
                       (10 ^ Z.of_nat (length fp)))
  | _, _ => Err ValueError
  end.

(** [a / b] on integers: the correctly rounded quotient. *)
Definition py_truediv (a b : Z) : result float :=
  if b =? 0 then Err ZeroDivisionError
  else
    let neg := xorb (a <? 0) (b <? 0) in
    match b64_of_ratio neg (Z.abs a) (Z.abs b) with
    | S754_infinity _ => Err OverflowError
    | x => Ok x
    end.

(** *** repr of a float: the shortest decimal that reads back *)

(** The exact value of a finite float [m * 2^e] as a fraction. *)
Definition float_ratio (m : positive) (e : Z) : Z * Z :=
  if 0 <=? e then (Zpos m * 2 ^ e, 1) else (Zpos m, 2 ^ (- e)).

Definition ndigits (z : Z) : Z := Z.of_nat (length (str_of_Z z)).

(** [scale10 (p, q) s] is the fraction [p / q / 10^s]. *)
Definition scale10 (pq : Z * Z) (s : Z) : Z * Z :=
  let '(p, q) := pq in
  if 0 <=? s then (p, q * 10 ^ s) else (p * 10 ^ (- s), q).

(** The decimal exponent [k] with [10^k <= p/q < 10^(k+1)]. *)
Definition decimal_exponent (pq : Z * Z) : Z :=
  let '(p, q) := pq in
  let k0 := ndigits p - ndigits q in
  let '(p', q') := scale10 pq k0 in
  if q' <=? p' then k0 else k0 - 1.

(** Does the decimal [c * 10^s] read back as the float [m * 2^e]? *)
Definition reads_back (m : positive) (e : Z) (c s : Z) : bool :=
  let '(p, q) := scale10 (c, 1) (- s) in
  match b64_of_ratio false p q with
  | S754_finite _ m' e' => Pos.eqb m m' && (e =? e')
  | _ => false
  end.

(** Try [n], [n+1], ... significant digits: among the two [n]-digit
    decimals around the value, keep those that read back and take the
    nearer one.  The result is [(c, s)], standing for [c * 10^s]. *)
Fixpoint shortest_from (fuel : nat) (m : positive) (e : Z) (k n : Z)
  : Z * Z :=
  let s := k - n + 1 in
  let '(num, den) := scale10 (float_ratio m e) s in
  let lo := num / den in
  let r := num mod den in
  match fuel with
  | O => (if 2 * r <? den then lo else lo + 1, s)
  | S fuel' =>
      if r =? 0 then (lo, s)
      else
        let ok_lo := reads_back m e lo s in
        let ok_hi := reads_back m e (lo + 1) s in
        match ok_lo, ok_hi with
        | true, true =>
            (match 2 * r ?= den with
             | Lt => lo
             | Gt => lo + 1
             | Eq => if Z.even lo then lo else lo + 1
             end, s)
        | true, false => (lo, s)
        | false, true => (lo + 1, s)
        | false, false => shortest_from fuel' m e k (n + 1)
        end
  end.

Fixpoint strip_zeros_rev (s : str) : str :=
  match s with
  | c :: r => if ascii_eqb c "0"%char then strip_zeros_rev r else s
  | [] => []
  end.

(** Trailing zeros removed. *)
Definition strip_trailing_zeros (s : str) : str :=
  rev (strip_zeros_rev (rev s)).

(** The exponent of the scientific notation: a sign and two digits at
    least. *)
Definition exponent_chars (x : Z) : str :=
  let d := str_of_Z (Z.abs x) in
  (if x <? 0 then "-"%char else "+"%char)
    :: (if (length d <? 2)%nat then "0"%char :: d else d).

(** Layout of the digits [ds] (no trailing zero) of a value
    [0.ds * 10^decpt], as [repr] does it. *)
Definition layout_digits (ds : str) (decpt : Z) : str :=
  let n := Z.of_nat (length ds) in
  if (decpt <=? -4) || (16 <? decpt) then
    match ds with
    | d :: [] => d :: "e"%char :: exponent_chars (decpt - 1)
    | d :: rest => d :: "."%char :: rest ++ "e"%char :: exponent_chars (decpt - 1)
    | [] => []
    end
  else if decpt <=? 0 then
    "0"%char :: "."%char :: repeat "0"%char (Z.to_nat (- decpt)) ++ ds
  else if n <=? decpt then
    ds ++ repeat "0"%char (Z.to_nat (decpt - n)) ++ [ "."%char; "0"%char ]
  else
    take (Z.to_nat decpt) ds ++ "."%char :: drop (Z.to_nat decpt) ds.

(** [str(x)] (which is [repr(x)]) for a float [x]. *)
Definition float_repr (x : float) : str :=
  match x with
  | S754_zero false => txt "0.0"
  | S754_zero true => txt "-0.0"
  | S754_infinity false => txt "inf"
  | S754_infinity true => txt "-inf"
  | S754_nan => txt "nan"
  | S754_finite neg m e =>
      let k := decimal_exponent (float_ratio m e) in
      let '(c, s) := shortest_from 17 m e k 1 in
      let all := str_of_Z c in
      let body := layout_digits (strip_trailing_zeros all)
                                (Z.of_nat (length all) + s) in
      if neg then "-"%char :: body else body
  end.

(** A value held in a record: an integer or a float. *)
Inductive pyval : Type :=
| PInt (n : Z)
| PFloat (x : float).

(** [str(v)]. *)
Definition py_str (v : pyval) : str :=
  match v with
  | PInt n => str_of_Z n
  | PFloat x => float_repr x
  end.

(* ===================================================================== *)
(** ** Global constants *)
(* ===================================================================== *)

(** Population center file header (including column labels). *)
Definition POP_HEADER : str :=
  txt "id" ++ [TAB] ++ txt "name" ++ [TAB] ++ txt "lat" ++ [TAB]
    ++ txt "lon" ++ [TAB] ++ txt "pop" ++ [TAB] ++ txt "vacc" ++ [TAB]
    ++ txt "adi" ++ [TAB] ++ [NL].

(** Facility file header (including column labels). *)
Definition FAC_HEADER : str :=
  txt "id" ++ [TAB] ++ txt "name" ++ [TAB] ++ txt "lat" ++ [TAB]
    ++ txt "lon" ++ [TAB] ++ txt "cap" ++ [TAB] ++ [NL].

(* ===================================================================== *)
(** ** Common functions *)
(* ===================================================================== *)

(** [point_to_coords(point)]: the tokens of the class [-.\d] are found,
    then [(float(s[1]), float(s[0]))] is built, left component first. *)
Definition point_to_coords (point : str) : result (float * float) :=
  let s := findall_num point in
  s1 ← subscript s 1;
  lat ← py_float s1;
  s0 ← subscript s 0;
  lon ← py_float s0;
  Ok (lat, lon).

(* ===================================================================== *)
(** ** The Chicago pipeline *)
(* ===================================================================== *)

(** The value [pop[zc]]: a list of five items in the source, at positions
    0 (latitude), 1 (longitude), 2 (population), 3 (vaccinations) and
    4 (ADI).  Positions 2 and 3 only ever hold integers; the others hold
    the integer 0 until a float is stored. *)
Record entry : Type := Entry {
  e_lat : pyval;
  e_lon : pyval;
  e_pop : Z;
  e_vacc : Z;
  e_adi : pyval
}.

(** [[0 for i in range(5)]]. *)
Definition new_entry : entry := Entry (PInt 0) (PInt 0) 0 0 (PInt 0).

(** The items of [pop[zc]] in list order. *)
Definition items (e : entry) : list pyval :=
  [e_lat e; e_lon e; PInt (e_pop e); PInt (e_vacc e); e_adi e].

Definition set_coords (e : entry) (lat lon : float) : entry :=
  Entry (PFloat lat) (PFloat lon) (e_pop e) (e_vacc e) (e_adi e).
Definition set_pop (e : entry) (n : Z) : entry :=
  Entry (e_lat e) (e_lon e) n (e_vacc e) (e_adi e).
Definition set_vacc (e : entry) (n : Z) : entry :=
  Entry (e_lat e) (e_lon e) (e_pop e) n (e_adi e).
Definition set_adi (e : entry) (x : float) : entry :=
  Entry (e_lat e) (e_lon e) (e_pop e) (e_vacc e) (PFloat x).

(** [d[k]] on a dictionary raises KeyError for a missing key. *)
Definition getitem {V} (d : gmap Z V) (k : Z) : result V :=
  match d !! k with
  | Some v => Ok v
  | None => Err KeyError
  end.

(** A [for] loop threading a state through a fallible body. *)
Fixpoint for_each {S A} (body : S -> A -> result S) (st : S) (l : list A)
  : result S :=
  match l with
  | [] => Ok st
  | a :: r => st' ← body st a; for_each body st' r
  end.

(** Body of the loop over the case file. *)
Definition case_row (pop : gmap Z entry) (line : str)
  : result (gmap Z entry) :=
  c ← subscript line 0;
  if negb (isdigit c) then Ok pop
  else
    let s := split ","%char line in
    s0 ← subscript s 0;
    zc ← py_int s0;
    let pop := match pop !! zc with
               | None => <[zc := new_entry]> pop
               | Some _ => pop
               end in
    geom ← subscript_last s;
    '(lat, lon) ← point_to_coords geom;
    e ← getitem pop zc;
    let pop := <[zc := set_coords e lat lon]> pop in
    e ← getitem pop zc;
    s18 ← subscript s 18;
    n ← py_int s18;
    Ok (<[zc := set_pop e (Z.max (e_pop e) n)]> pop).

(** Body of the loop over the vaccination file.  [pop[zc][3]] is read
    before [int(s[4])] is evaluated; only ValueError is caught. *)
Definition vacc_row (pop : gmap Z entry) (line : str)
  : result (gmap Z entry) :=
  c ← subscript line 0;
  if negb (isdigit c) then Ok pop
  else
    let s := split ","%char line in
    s0 ← subscript s 0;
    zc ← py_int s0;
    e ← getitem pop zc;
    s4 ← subscript s 4;
    match py_int s4 with
    | Ok n => Ok (<[zc := set_vacc e (e_vacc e + n)]> pop)
    | Err ValueError => Ok pop
    | Err x => Err x
    end.

(** Body of the loop over the ADI file; [adi[zc]] is the pair
    [sum, count]. *)
Definition adi_row (pop : gmap Z entry) (adi : gmap Z (Z * Z)) (line : str)
  : result (gmap Z (Z * Z)) :=
  let s := split ","%char (remove_char QUOTE line) in
  s0 ← subscript s 0;
  c ← subscript s0 0;
  if negb (isdigit c) then Ok adi
  else
    zc ← py_int (take 5 s0);
    match pop !! zc with
    | None => Ok adi
    | Some _ =>
        t ← getitem adi zc;
        s4 ← subscript s 4;
        match py_int s4 with
        | Ok n => Ok (<[zc := (fst t + n, snd t + 1)]> adi)
        | Err ValueError => Ok adi
        | Err x => Err x
        end
    end.

(** Body of the averaging loop [for zc in pop]. *)
Definition mean_step (adi : gmap Z (Z * Z)) (pop : gmap Z entry) (zc : Z)
  : result (gmap Z entry) :=
  t ← getitem adi zc;
  if 0 <? snd t then
    x ← py_truediv (fst t) (snd t);
    e ← getitem pop zc;
    Ok (<[zc := set_adi e x]> pop)
  else Ok pop.

(** The keys of a dictionary, in the order the model iterates them. *)
Definition keys {V} (d : gmap Z V) : list Z := (map_to_list d).*1.

(** [sorted(pop.keys())]. *)
Definition sorted_keys {V} (d : gmap Z V) : list Z :=
  merge_sort Z.le (keys d).

(** One line of the population file. *)
Definition pop_line (i : nat) (zc : Z) (e : entry) : str :=
  str_of_Z (Z.of_nat i) ++ [TAB] ++ str_of_Z zc ++ [TAB]
    ++ concat (map (fun item => py_str item ++ [TAB]) (items e))
    ++ [NL].

(** The lines written for the keys [sk], numbered from [i]. *)
Fixpoint pop_lines (pop : gmap Z entry) (i : nat) (sk : list Z)
  : result str :=
  match sk with
  | [] => Ok []
  | zc :: r =>
      e ← getitem pop zc;
      rest ← pop_lines pop (S i) r;
      Ok (pop_line i zc e ++ rest)
  end.

(** The three ingestion steps, from the lines of the three files to the
    final dictionary. *)
Definition ingest_cases (case_lines : list str) : result (gmap Z entry) :=
  for_each case_row ∅ case_lines.

Definition ingest_vacc (pop : gmap Z entry) (vacc_lines : list str)
  : result (gmap Z entry) :=
  for_each vacc_row pop vacc_lines.

Definition ingest_adi (pop : gmap Z entry) (adi_lines : list str)
  : result (gmap Z entry) :=
  adi ← for_each (adi_row pop) ((fun _ => (0, 0)) <$> pop) adi_lines;
  for_each (mean_step adi) pop (keys pop).

(** [process_chicago]: from the contents of the case, vaccination and ADI
    files to the contents of the population and facility files.  The
    facility-location file is named by the source but never read. *)
Definition process_chicago (case_file vacc_file adi_file : str)
  : result (str * str) :=
  pop ← ingest_cases (file_lines case_file);
  pop ← ingest_vacc pop (file_lines vacc_file);
  pop ← ingest_adi pop (file_lines adi_file);
  body ← pop_lines pop 0 (sorted_keys pop);
  Ok (POP_HEADER ++ body, FAC_HEADER).

(* ===================================================================== *)
(** ** Reading the source files and the output file back *)
(* ===================================================================== *)

(** The observations below are the expressions of the loop bodies, taken
    one at a time, with [None] for "raises". *)

Definition to_option {A} (r : result A) : option A :=
  match r with
  | Ok a => Some a
  | Err _ => None
  end.

(** A line the header test [line[0].isdigit()] lets through. *)
Definition is_data_line (line : str) : bool :=
  match line with
  | c :: _ => isdigit c
  | [] => false
  end.

(** [int(s[0])] of a data line of the case or vaccination file. *)
Definition line_code (line : str) : option Z :=
  if is_data_line line then
    to_option (s0 ← subscript (split ","%char line) 0; py_int s0)
  else None.

(** [int(s[i])] of a line. *)
Definition line_int (i : nat) (line : str) : option Z :=
  to_option (si ← subscript (split ","%char line) i; py_int si).

(** [point_to_coords(s[-1])] of a line. *)
Definition line_coords (line : str) : option (float * float) :=
  to_option (g ← subscript_last (split ","%char line); point_to_coords g).

(** Postal codes of the data rows of the case file, in file order. *)
Definition case_codes (lines : list str) : list Z := omap line_code lines.

(** The values [f line] of the data rows that carry the code [zc]. *)
Definition rows_of {A} (f : str -> option A) (zc : Z) (lines : list str)
  : list A :=
  omap (fun l => if decide (line_code l = Some zc) then f l else None) lines.

(** Case counts (column 18) seen for [zc]. *)
Definition case_counts (zc : Z) (lines : list str) : list Z :=
  rows_of (line_int 18) zc lines.

(** Coordinates seen for [zc]. *)
Definition case_coords (zc : Z) (lines : list str) : list (float * float) :=
  rows_of line_coords zc lines.

(** Numeric vaccination values (column 4) seen for [zc]. *)
Definition vacc_values (zc : Z) (lines : list str) : list Z :=
  rows_of (line_int 4) zc lines.

(** The parent code of an ADI line: the first five characters of its
    first column once the quotes are gone, when that column starts with
    a digit. *)
Definition adi_code (line : str) : option Z :=
  match split ","%char (remove_char QUOTE line) with
  | (c :: _) as s0 :: _ =>
      if isdigit c then to_option (py_int (take 5 s0)) else None
  | _ => None
  end.

(** Numeric ADI values (column 4) of the lines whose parent code is
    [zc]. *)
Definition adi_values (zc : Z) (lines : list str) : list Z :=
  omap (fun l => if decide (adi_code l = Some zc)
                 then line_int 4 (remove_char QUOTE l) else None) lines.

Definition sum_list (l : list Z) : Z := foldr Z.add 0 l.
Definition max_list (l : list Z) : Z := foldr Z.max 0 l.

(** The rows of a tab-separated text: each line without its newline, cut
    at the tabs. *)
Definition tsv_rows (out : str) : list (list str) :=
  map (fun l => split TAB (remove_char NL l)) (lines_keepends out).

(** The rows after the header. *)
Definition data_rows (out : str) : list (list str) := tail (tsv_rows out).

(** Column [i] of every data row, read as an integer. *)
Definition int_column (i : nat) (out : str) : list (option Z) :=
  map (fun r => to_option (f ← subscript r i; py_int f)) (data_rows out).

(** The field at column [col] of the first data row whose name column
    holds the code [zc]. *)
Definition out_field (out : str) (zc : Z) (col : nat) : option str :=
  r ← List.find (fun r => bool_decide (r !! 1%nat = Some (str_of_Z zc)))
                (data_rows out);
  r !! col.


(** The effect of one data row of the case file on the dictionary. *)
Definition case_update (pop : gmap Z entry) (zc : Z) (lat lon : float) (n : Z)
  : gmap Z entry :=
  let e0 := default new_entry (pop !! zc) in
  <[zc := Entry (PFloat lat) (PFloat lon) (Z.max (e_pop e0) n)
                (e_vacc e0) (e_adi e0)]> pop.

(** The effect of one data row of the vaccination file. *)
Definition vacc_update (pop : gmap Z entry) (zc : Z) (e : entry)
  (v : option Z) : gmap Z entry :=
  match v with
  | Some n => <[zc := set_vacc e (e_vacc e + n)]> pop
  | None => pop
  end.

(** Characters that [str] of a number can produce. *)
Definition repr_char (c : ascii) : bool :=
  isdigit c || bool_decide (c ∈ txt "-+.einfa").

(** The fields of the line written for [zc]: the trailing tab leaves an
    empty last field. *)
Definition row_fields (i : nat) (zc : Z) (e : entry) : list str :=
  [str_of_Z (Z.of_nat i); str_of_Z zc] ++ map py_str (items e) ++ [[]].

(** What the final record of [zc] holds, in terms of the lines of the
    three source files. *)
Definition entry_spec (cl vl al : list str) (zc : Z) (e : entry) : Prop :=
  (exists lat lon,
      last (case_coords zc cl) = Some (lat, lon) /\
      e_lat e = PFloat lat /\ e_lon e = PFloat lon) /\
  e_pop e = max_list (case_counts zc cl) /\
  e_vacc e = sum_list (vacc_values zc vl) /\
  match adi_values zc al with
  | [] => e_adi e = PInt 0
  | vals =>
      exists x, py_truediv (sum_list vals) (Z.of_nat (length vals)) = Ok x /\
                e_adi e = PFloat x
  end.


(* ===================================================================== *)
(** ** A sample run *)
(* ===================================================================== *)

(** A case file with a header line, two rows for 60601 and one for 60602;
    a vaccination file with a non-numeric row; an ADI file with a header,
    two numeric sub-codes of 60601, a suppressed value and a sub-code of
    an unknown parent. *)
Definition sample_case : str :=
  txt "ZIP Code,Week Number,Week Start" ++ [NL]
  ++ txt "60601,a,b,c,d,e,f,g,h,i,j,k,l,m,n,o,p,q,18,POINT (-87.62 41.88)"
  ++ [NL]
  ++ txt "60602,a,b,c,d,e,f,g,h,i,j,k,l,m,n,o,p,q,7,r,POINT (-87.7 41.9)"
  ++ [NL]
  ++ txt "60601,a,b,c,d,e,f,g,h,i,j,k,l,m,n,o,p,q,5,POINT (-87.5 41.5)"
  ++ [NL].

Definition sample_vacc : str :=
  txt "Zip Code,Date" ++ [NL]
  ++ txt "60601,x,,,150" ++ [NL]
  ++ txt "60601,x,,,n/a" ++ [NL]
  ++ txt "60602,x,,,3" ++ [NL]
  ++ txt "60601,x,,,25" ++ [NL].

Definition sample_adi : str :=
  [QUOTE] ++ txt "GISJOIN" ++ [QUOTE] ++ txt ",a,b,c,d" ++ [NL]
  ++ [QUOTE] ++ txt "606011234" ++ [QUOTE] ++ txt ",a,b,c,"
  ++ [QUOTE] ++ txt "40" ++ [QUOTE] ++ [NL]
  ++ [QUOTE] ++ txt "606011235" ++ [QUOTE] ++ txt ",a,b,c,"
  ++ [QUOTE] ++ txt "41" ++ [QUOTE] ++ [NL]
  ++ [QUOTE] ++ txt "606011236" ++ [QUOTE] ++ txt ",a,b,c,"
  ++ [QUOTE] ++ txt "GQ" ++ [QUOTE] ++ [NL]
  ++ [QUOTE] ++ txt "999991234" ++ [QUOTE] ++ txt ",a" ++ [NL].

Definition sample_pop_out : str :=
  POP_HEADER
  ++ txt "0" ++ [TAB] ++ txt "60601" ++ [TAB] ++ txt "41.5" ++ [TAB]
  ++ txt "-87.5" ++ [TAB] ++ txt "18" ++ [TAB] ++ txt "175" ++ [TAB]
  ++ txt "40.5" ++ [TAB] ++ [NL]
  ++ txt "1" ++ [TAB] ++ txt "60602" ++ [TAB] ++ txt "41.9" ++ [TAB]
  ++ txt "-87.7" ++ [TAB] ++ txt "7" ++ [TAB] ++ txt "3" ++ [TAB]
  ++ txt "0" ++ [TAB] ++ [NL].


(** Two rows for the same code, in both orders. *)
Definition row_a : str :=
  txt "60601,a,b,c,d,e,f,g,h,i,j,k,l,m,n,o,p,q,18,POINT (-87.62 41.88)" ++ [NL].
Definition row_b : str :=
  txt "60601,a,b,c,d,e,f,g,h,i,j,k,l,m,n,o,p,q,5,POINT (-87.5 41.5)" ++ [NL].
Definition two_rows : str := row_a ++ row_b.
Definition two_rows_swapped : str := row_b ++ row_a.

(** An ADI line that changes no tally of [zc] and raises nothing: its
    first column is not empty and either does not start with a digit, or
    gives another parent code, or gives [zc] with a column 4 that is not
    numeric. *)
Definition adi_line_inert (zc : Z) (line : str) : Prop :=
  let s := split ","%char (remove_char QUOTE line) in
  exists c s0 rest,
    s = (c :: s0) :: rest /\
    (isdigit c = false \/
     exists zc', py_int (take 5 (c :: s0)) = Ok zc' /\
                 (zc' ≠ zc \/
                  exists s4, s !! 4%nat = Some s4 /\ py_int s4 = Err ValueError)).

(** The floats read from "41.88" and "-87.62". *)
Definition lat_41_88 : float := S754_finite false 5894086012321137 (-47).
Definition lon_87_62 : float := S754_finite true 6165709364846920 (-46).

(** The data row of the case file of the scenario, with the columns 1 to
    17 left open, and the row of its vaccination file, with column 1 left
    open. *)
Definition scenario_case_row (mids : list str) (eol : str) : str :=
  txt "60601," ++ concat (map (fun f => f ++ [","%char]) mids)
    ++ txt "18,POINT (-87.62 41.88)" ++ eol.
Definition scenario_vacc_row (vmid eol : str) : str :=
  txt "60601," ++ vmid ++ txt ",,,150" ++ eol.

(** The population file of the scenario. *)
Definition scenario_pop_out : str :=
  POP_HEADER
  ++ txt "0" ++ [TAB] ++ txt "60601" ++ [TAB] ++ txt "41.88" ++ [TAB]
  ++ txt "-87.62" ++ [TAB] ++ txt "18" ++ [TAB] ++ txt "150" ++ [TAB]
  ++ txt "0" ++ [TAB] ++ [NL].

(** The inputs of a run of the scenario: a header line, seventeen filler
    columns, an ADI file with a header line and a sub-code of another
    parent. *)
Definition scenario_hdr : str := txt "ZIP Code,Week Number,Week Start".
Definition scenario_mids : list str :=
  map txt ["1"; "01/01/2021"; "01/07/2021"; "4"; "40"; "28.6"; "286";
           "120"; "1200"; "859"; "8590"; "0.03"; "0.03"; "0"; "1"; "0";
           "7.2"]%string.
Definition scenario_adi : str :=
  [QUOTE] ++ txt "GISJOIN" ++ [QUOTE] ++ txt ",x" ++ [NL]
  ++ [QUOTE] ++ txt "999991234" ++ [QUOTE] ++ txt ",a,b,c,"
  ++ [QUOTE] ++ txt "40" ++ [QUOTE] ++ [NL].

(** A vaccination file whose second row names a code the case file does
    not have. *)
Definition unknown_vacc : str :=
  txt "60601,x,,,150" ++ [NL] ++ txt "99999,x,,,7" ++ [NL].

(* ===================================================================== *)
(** ** Lines that raise nothing, and what the loops compute *)
(* ===================================================================== *)


(** A line the loop over the vaccination file goes through without
    raising, [known] being the codes of the case file. *)
Definition vacc_row_ok (known : Z -> Prop) (line : str) : Prop :=
  is_data_line line = true ->
  exists zc, line_code line = Some zc /\ known zc /\
             is_Some (split ","%char line !! 4%nat).

(** A line the loop over the ADI file goes through without raising: its
    first column is not empty and, when it starts with a digit, its
    first five characters are an integer and, for a known parent code,
    column 4 exists. *)
Definition adi_line_ok (known : Z -> Prop) (line : str) : Prop :=
  let s := split ","%char (remove_char QUOTE line) in
  exists c s0 rest,
    s = (c :: s0) :: rest /\
    (isdigit c = true ->
     exists zc, py_int (take 5 (c :: s0)) = Ok zc /\
                (known zc -> is_Some (s !! 4%nat))).

(** The dictionary after the vaccination loop, as a function of the
    lines. *)
Definition vacc_result (pop : gmap Z entry) (lines : list str)
  : gmap Z entry :=
  map_imap (fun zc e =>
              Some (set_vacc e (e_vacc e + sum_list (vacc_values zc lines))))
           pop.

(** The tallies after the ADI loop, as a function of the lines. *)
Definition tally_result (pop : gmap Z entry) (lines : list str)
  : gmap Z (Z * Z) :=
  map_imap (fun zc (_ : entry) =>
              Some (sum_list (adi_values zc lines),
                    Z.of_nat (length (adi_values zc lines))))
           pop.

(** An ADI line the header test [s[0][0].isdigit()] rejects. *)
Definition is_adi_header (line : str) : bool :=
  match split ","%char (remove_char QUOTE line) with
  | (c :: _) :: _ => negb (isdigit c)
  | _ => false
  end.

(* ===================================================================== *)
(** ** The files *)
(* ===================================================================== *)

(** The file system is a map from path texts to contents; two different
    texts name two different files.  Opening for reading a path that is
    not there raises FileNotFoundError; opening for writing always
    succeeds and empties the file.  A run ends with the file system it
    leaves behind, finished or aborted by an exception. *)

Inductive RunErr : Type :=
| FileNotFoundError (path : string)
| Raised (e : PyErr).

Inductive outcome : Type :=
| Finished (fs : gmap string str)
| Aborted (e : RunErr) (fs : gmap string str).

(** [os.path.join("chicago", ...)] with the separator "/". *)
Definition case_path : string :=
  "chicago/COVID-19_Cases__Tests__and_Deaths_by_ZIP_Code.csv".
Definition fac_path : string :=
  "chicago/COVID-19_Vaccination_Locations.csv".
Definition vacc_path : string :=
  "chicago/COVID-19_Vaccinations_by_ZIP_Code.csv".
Definition adi_path : string :=
  "chicago/IL_2020_ADI_9 Digit Zip Code_v3.2.csv".

(** [f.write(s)] on the file opened at [path]. *)
Definition write (path : string) (s : str) (fs : gmap string str)
  : gmap string str :=
  <[path := default [] (fs !! path) ++ s]> fs.

(** The loop that writes the rows of the population file, one [write]
    per row. *)
Fixpoint write_rows (pop : gmap Z entry) (i : nat) (sk : list Z)
  (path : string) (fs : gmap string str) : outcome :=
  match sk with
  | [] => Finished fs
  | zc :: r =>
      match getitem pop zc with
      | Err e => Aborted (Raised e) fs
      | Ok e => write_rows pop (S i) r path (write path (pop_line i zc e) fs)
      end
  end.

(** [process_chicago(popfile, facfile)] on a file system: the three
    source files are opened and read one after the other, then the two
    output files are opened and written. *)
Definition process_chicago_files (popfile facfile : string)
  (fs : gmap string str) : outcome :=
  match fs !! case_path with
  | None => Aborted (FileNotFoundError case_path) fs
  | Some c =>
  match ingest_cases (file_lines c) with
  | Err e => Aborted (Raised e) fs
  | Ok pop =>
  match fs !! vacc_path with
  | None => Aborted (FileNotFoundError vacc_path) fs
  | Some v =>
  match ingest_vacc pop (file_lines v) with
  | Err e => Aborted (Raised e) fs
  | Ok pop =>
  match fs !! adi_path with
  | None => Aborted (FileNotFoundError adi_path) fs
  | Some a =>
  match ingest_adi pop (file_lines a) with
  | Err e => Aborted (Raised e) fs
  | Ok pop =>
      let fs := write popfile POP_HEADER (<[popfile := []]> fs) in
      match write_rows pop 0 (sorted_keys pop) popfile fs with
      | Aborted e fs => Aborted e fs
      | Finished fs =>
          Finished (write facfile FAC_HEADER (<[facfile := []]> fs))
      end
  end end end end end end.

(** [process_santa_clara(popfile, facfile)]: the source files are named
    but not opened; the two headers are written. *)
Definition process_santa_clara_files (popfile facfile : string)
  (fs : gmap string str) : outcome :=
  let fs := write popfile POP_HEADER (<[popfile := []]> fs) in
  Finished (write facfile FAC_HEADER (<[facfile := []]> fs)).

(** The two calls at the end of the module, with the default paths. *)
Definition main (fs : gmap string str) : outcome :=
  match process_chicago_files "chicago_pop.tsv" "chicago_fac.tsv" fs with
  | Aborted e fs => Aborted e fs
  | Finished fs =>
      process_santa_clara_files "santa_clara_pop.tsv" "santa_clara_fac.tsv" fs
  end.

(* ===================================================================== *)
(** ** More sample inputs *)
(* ===================================================================== *)

(** The sample vaccination and ADI files with their first two lines
    exchanged. *)
Definition sample_vacc_reordered : str :=
  txt "60601,x,,,150" ++ [NL]
  ++ txt "Zip Code,Date" ++ [NL]
  ++ txt "60601,x,,,n/a" ++ [NL]
  ++ txt "60602,x,,,3" ++ [NL]
  ++ txt "60601,x,,,25" ++ [NL].

Definition sample_adi_reordered : str :=
  [QUOTE] ++ txt "606011234" ++ [QUOTE] ++ txt ",a,b,c,"
  ++ [QUOTE] ++ txt "40" ++ [QUOTE] ++ [NL]
  ++ [QUOTE] ++ txt "GISJOIN" ++ [QUOTE] ++ txt ",a,b,c,d" ++ [NL]
  ++ [QUOTE] ++ txt "606011235" ++ [QUOTE] ++ txt ",a,b,c,"
  ++ [QUOTE] ++ txt "41" ++ [QUOTE] ++ [NL]
  ++ [QUOTE] ++ txt "606011236" ++ [QUOTE] ++ txt ",a,b,c,"
  ++ [QUOTE] ++ txt "GQ" ++ [QUOTE] ++ [NL]
  ++ [QUOTE] ++ txt "999991234" ++ [QUOTE] ++ txt ",a" ++ [NL].

(** The sample case file with a comment line in the middle and a blank
    line at the end. *)
Definition sample_case_commented : str :=
  txt "ZIP Code,Week Number,Week Start" ++ [NL]
  ++ txt "60601,a,b,c,d,e,f,g,h,i,j,k,l,m,n,o,p,q,18,POINT (-87.62 41.88)"
  ++ [NL]
  ++ txt "# the next row has one more column" ++ [NL]
  ++ txt "60602,a,b,c,d,e,f,g,h,i,j,k,l,m,n,o,p,q,7,r,POINT (-87.7 41.9)"
  ++ [NL]
  ++ txt "60601,a,b,c,d,e,f,g,h,i,j,k,l,m,n,o,p,q,5,POINT (-87.5 41.5)"
  ++ [NL] ++ [NL].

(** The sample case file with the row of 60602 written twice. *)
Definition sample_case_repeated : str :=
  txt "ZIP Code,Week Number,Week Start" ++ [NL]
  ++ txt "60601,a,b,c,d,e,f,g,h,i,j,k,l,m,n,o,p,q,18,POINT (-87.62 41.88)"
  ++ [NL]
  ++ txt "60602,a,b,c,d,e,f,g,h,i,j,k,l,m,n,o,p,q,7,r,POINT (-87.7 41.9)"
  ++ [NL]
  ++ txt "60602,a,b,c,d,e,f,g,h,i,j,k,l,m,n,o,p,q,7,r,POINT (-87.7 41.9)"
  ++ [NL]
  ++ txt "60601,a,b,c,d,e,f,g,h,i,j,k,l,m,n,o,p,q,5,POINT (-87.5 41.5)"
  ++ [NL].

(** A file system with the three sample source files, and what the
    module leaves behind on it. *)
Definition sample_fs : gmap string str :=
  <[case_path := sample_case]>
    (<[vacc_path := sample_vacc]> (<[adi_path := sample_adi]> ∅)).

Definition sample_fs_after : gmap string str :=
  <["santa_clara_fac.tsv"%string := FAC_HEADER]>
    (<["santa_clara_pop.tsv"%string := POP_HEADER]>
       (<["chicago_fac.tsv"%string := FAC_HEADER]>
          (<["chicago_pop.tsv"%string := sample_pop_out]> sample_fs))).

(* ===================================================================== *)
(** * Lemmas *)
(* ===================================================================== *)

(** ** The exception monad and loops *)


Lemma bind_Ok {A B} (r : result A) (k : A -> result B) (b : B) :
  (r ≫= k) = Ok b <-> exists a, r = Ok a /\ k a = Ok b.
Proof.
  destruct r as [a|e]; cbn; split.
  - intros H; exists a; auto.
  - intros (a' & [= <-] & H); exact H.
  - discriminate.
  - intros (a' & [=] & _).
Qed.

Lemma to_option_Some {A} (r : result A) a : to_option r = Some a <-> r = Ok a.
Proof. destruct r; cbn; split; congruence. Qed.

Lemma for_each_app {S A} (body : S -> A -> result S) st l1 l2 :
  for_each body st (l1 ++ l2) = (for_each body st l1 ≫= fun st' => for_each body st' l2).
Proof.
  revert st; induction l1 as [|a l1 IH]; intros st; cbn; [done|].
  destruct (body st a) as [st'|e]; cbn; [apply IH|done].
Qed.

Lemma subscript_0_data (line : str) c :
  subscript line 0 = Ok c -> is_data_line line = isdigit c.
Proof. destruct line; cbn; [discriminate|]. by intros [= ->]. Qed.

Lemma case_row_Ok pop line pop' :
  case_row pop line = Ok pop' ->
  (is_data_line line = false /\ pop' = pop) \/
  (exists zc lat lon n,
      line_code line = Some zc /\ line_coords line = Some (lat, lon) /\
      line_int 18 line = Some n /\ pop' = case_update pop zc lat lon n).
Proof.
  unfold case_row. intros H.
  apply bind_Ok in H as (c & Hc & H).
  pose proof (subscript_0_data _ _ Hc) as Hd.
  destruct (isdigit c) eqn:Hdig; cbn in H.
  2:{ left. split; [done|congruence]. }
  right.
  apply bind_Ok in H as (s0 & Hs0 & H).
  apply bind_Ok in H as (zc & Hzc & H).
  apply bind_Ok in H as (geom & Hg & H).
  apply bind_Ok in H as ([lat lon] & Hpt & H).
  apply bind_Ok in H as (e & He & H).
  apply bind_Ok in H as (e' & He' & H).
  apply bind_Ok in H as (s18 & Hs18 & H).
  apply bind_Ok in H as (n & Hn & H).
  exists zc, lat, lon, n.
  split; [|split; [|split]].
  - unfold line_code. rewrite Hd, Hs0. cbn. by rewrite Hzc.
  - unfold line_coords. rewrite Hg. cbn. by rewrite Hpt.
  - unfold line_int. rewrite Hs18. cbn. by rewrite Hn.
  - injection H as <-. unfold case_update.
    unfold getitem in He'. rewrite lookup_insert_eq in He'. injection He' as <-.
    rewrite insert_insert_eq.
    unfold getitem in He.
    destruct (pop !! zc) as [e0|] eqn:Hl; cbn.
    + rewrite Hl in He. injection He as <-. done.
    + rewrite lookup_insert_eq in He. injection He as <-. 
      apply map_eq. intros k. destruct (decide (zc = k)) as [->|Hne].
      * by rewrite !lookup_insert_eq.
      * by rewrite !lookup_insert_ne.
Qed.

Lemma rows_of_cons {A} (f : str -> option A) zc l ls :
  rows_of f zc (l :: ls) =
  (if decide (line_code l = Some zc) then option_list (f l) else []) ++ rows_of f zc ls.
Proof.
  unfold rows_of; cbn. destruct (decide _); [|done]. by destruct (f l).
Qed.

Lemma case_codes_cons l ls :
  case_codes (l :: ls) = option_list (line_code l) ++ case_codes ls.
Proof. unfold case_codes; cbn. by destruct (line_code l). Qed.

Lemma line_code_not_data l : is_data_line l = false -> line_code l = None.
Proof. unfold line_code. by intros ->. Qed.

Lemma rows_of_not_in {A} (f : str -> option A) zc ls :
  zc ∉ case_codes ls -> rows_of f zc ls = [].
Proof.
  induction ls as [|l ls IH]; [done|].
  rewrite case_codes_cons, rows_of_cons. intros Hn.
  rewrite not_elem_of_app in Hn. destruct Hn as [Hn1 Hn2].
  rewrite (IH Hn2). destruct (decide _) as [E|]; [|done].
  rewrite E in Hn1. cbn in Hn1. set_solver.
Qed.

Lemma last_cons_ne {A} (x : A) l : l ≠ [] -> last (x :: l) = last l.
Proof. by destruct l. Qed.

Lemma ingest_cases_gen lines : forall pop0 pop,
  for_each case_row pop0 lines = Ok pop ->
  forall zc,
    (zc ∉ case_codes lines -> pop !! zc = pop0 !! zc) /\
    (zc ∈ case_codes lines ->
       exists lat lon,
         last (case_coords zc lines) = Some (lat, lon) /\
         let e0 := default new_entry (pop0 !! zc) in
         pop !! zc = Some (Entry (PFloat lat) (PFloat lon)
                                 (foldl Z.max (e_pop e0) (case_counts zc lines))
                                 (e_vacc e0) (e_adi e0))).
Proof.
  induction lines as [|l ls IH]; intros pop0 pop H zc.
  - injection H as <-. split; [done|]. unfold case_codes; cbn. set_solver.
  - cbn in H. apply bind_Ok in H as (pop1 & H1 & H).
    specialize (IH _ _ H zc) as [IHn IHy].
    unfold case_coords, case_counts in *.
    rewrite case_codes_cons, !rows_of_cons.
    apply case_row_Ok in H1 as [[Hd ->]|(zc0 & lat & lon & n & Hc & Hco & Hn & ->)].
    + rewrite (line_code_not_data _ Hd). cbn.
      destruct (decide _) as [?|_]; [done|]. cbn. split; auto.
    + rewrite Hc, Hco, Hn. cbn.
      destruct (decide (Some zc0 = Some zc)) as [[= ->]|Hne]; cbn.
      * split; [set_solver|]. intros _.
        unfold case_update in *.
        destruct (decide (zc ∈ case_codes ls)) as [Hin|Hnin].
        -- destruct (IHy Hin) as (lat' & lon' & Hl & Hp).
           exists lat', lon'. split.
           ++ rewrite last_cons_ne; [done|]. intros E. by rewrite E in Hl.
           ++ rewrite Hp. rewrite lookup_insert_eq. done.
        -- exists lat, lon. rewrite (rows_of_not_in _ _ _ Hnin).
           rewrite (rows_of_not_in _ _ _ Hnin). split; [done|].
           rewrite (IHn Hnin), lookup_insert_eq. done.
      * assert (zc0 ≠ zc) by congruence.
        unfold case_update in *. rewrite lookup_insert_ne in IHn, IHy by done.
        split.
        -- intros Hni. apply IHn. intros Hin. apply Hni.
           apply elem_of_cons. by right.
        -- intros Hi. apply IHy.
           apply elem_of_cons in Hi as [Heq|Hin]; [congruence|done].
Qed.

Lemma int_digits_err acc prev s e : int_digits acc prev s = Err e -> e = ValueError.
Proof.
  revert acc prev; induction s as [|c r IH]; intros acc prev; cbn.
  - destruct prev; congruence.
  - destruct (isdigit c); [apply IH|].
    destruct (ascii_eqb c "_"); [|congruence].
    destruct prev; [apply IH|congruence].
Qed.

Lemma py_int_err s e : py_int s = Err e -> e = ValueError.
Proof.
  unfold py_int. destruct (strip s) as [|c r]; [congruence|].
  destruct (ascii_eqb c "-").
  - destruct (int_digits 0 false r) eqn:E; cbn; [congruence|].
    intros [= <-]. eauto using int_digits_err.
  - destruct (ascii_eqb c "+"); apply int_digits_err.
Qed.

Lemma vacc_row_Ok pop line pop' :
  vacc_row pop line = Ok pop' ->
  (is_data_line line = false /\ pop' = pop) \/
  (exists zc e,
      line_code line = Some zc /\ pop !! zc = Some e /\
      is_Some (split "," line !! 4%nat) /\
      pop' = vacc_update pop zc e (line_int 4 line)).
Proof.
  unfold vacc_row. intros H.
  apply bind_Ok in H as (c & Hc & H).
  pose proof (subscript_0_data _ _ Hc) as Hd.
  destruct (isdigit c) eqn:Hdig; cbn in H.
  2:{ left. split; [done|congruence]. }
  right.
  apply bind_Ok in H as (s0 & Hs0 & H).
  apply bind_Ok in H as (zc & Hzc & H).
  apply bind_Ok in H as (e & He & H).
  apply bind_Ok in H as (s4 & Hs4 & H).
  exists zc, e.
  split; [|split; [|split]].
  - unfold line_code. rewrite Hd, Hs0. cbn. by rewrite Hzc.
  - unfold getitem in He. destruct (pop !! zc); congruence.
  - unfold subscript in Hs4. destruct (split "," line !! 4%nat); [eauto|discriminate].
  - unfold line_int. rewrite Hs4. cbn.
    destruct (py_int s4) as [n|x] eqn:E; cbn.
    + congruence.
    + apply py_int_err in E as ->. congruence.
Qed.

Lemma ingest_vacc_gen lines : forall pop0 pop,
  for_each vacc_row pop0 lines = Ok pop ->
  forall zc,
    pop !! zc =
    (fun e => set_vacc e (e_vacc e + sum_list (vacc_values zc lines))) <$> pop0 !! zc.
Proof.
  induction lines as [|l ls IH]; intros pop0 pop H zc.
  - injection H as <-. cbn. destruct (pop0 !! zc) as [[]|]; cbn; [|done].
    unfold set_vacc; cbn. do 2 f_equal. lia.
  - cbn in H. apply bind_Ok in H as (pop1 & H1 & H).
    rewrite (IH _ _ H zc). unfold vacc_values. rewrite rows_of_cons.
    apply vacc_row_Ok in H1 as [[Hd ->]|(zc0 & e & Hc & He & _ & ->)].
    + rewrite (line_code_not_data _ Hd). destruct (decide _); done.
    + rewrite Hc. destruct (decide (Some zc0 = Some zc)) as [[= ->]|Hne].
      * destruct (line_int 4 l) as [n|]; cbn.
        -- rewrite lookup_insert_eq, He. cbn. unfold set_vacc; cbn.
           do 2 f_equal. unfold sum_list. lia.
        -- done.
      * assert (zc0 ≠ zc) by congruence.
        destruct (line_int 4 l); cbn; [|done]. by rewrite lookup_insert_ne.
Qed.

Lemma adi_row_Ok pop adi line adi' :
  adi_row pop adi line = Ok adi' ->
  match adi_code line with
  | Some zc =>
      match pop !! zc with
      | Some _ =>
          exists t, adi !! zc = Some t /\
            is_Some (split "," (remove_char QUOTE line) !! 4%nat) /\
            adi' = match line_int 4 (remove_char QUOTE line) with
                   | Some n => <[zc := (fst t + n, snd t + 1)]> adi
                   | None => adi
                   end
      | None => adi' = adi
      end
  | None => adi' = adi
  end.
Proof.
  unfold adi_row, adi_code. intros H.
  apply bind_Ok in H as (s0 & Hs0 & H).
  apply bind_Ok in H as (c & Hc & H).
  unfold subscript in Hs0.
  destruct (split "," (remove_char QUOTE line)) as [|s0' ss] eqn:Es; [discriminate|].
  cbn in Hs0. injection Hs0 as ->.
  remember (take 5 s0) as pre eqn:Hpre.
  destruct s0 as [|c' s0]; [discriminate|]. cbn in Hc. injection Hc as ->.
  clear Hpre.
  destruct (isdigit c) eqn:Hdig; cbn in H; [|congruence].
  apply bind_Ok in H as (zc & Hzc & H).
  rewrite Hzc. cbn.
  destruct (pop !! zc); [|congruence].
  apply bind_Ok in H as (t & Ht & H).
  apply bind_Ok in H as (s4 & Hs4 & H).
  exists t. split; [|split].
  - unfold getitem in Ht. destruct (adi !! zc); congruence.
  - unfold subscript in Hs4.
    destruct (((c :: s0) :: ss) !! 4%nat) eqn:E4; [eauto|discriminate].
  - unfold line_int. rewrite Es, Hs4. cbn.
    destruct (py_int s4) as [n|x] eqn:E; cbn.
    + congruence.
    + apply py_int_err in E as ->. congruence.
Qed.

Lemma adi_values_cons zc l ls :
  adi_values zc (l :: ls) =
  (if decide (adi_code l = Some zc) then option_list (line_int 4 (remove_char QUOTE l)) else [])
    ++ adi_values zc ls.
Proof.
  unfold adi_values; cbn. destruct (decide _); [|done].
  by destruct (line_int 4 _).
Qed.

Lemma tally_gen pop lines : forall adi0 adi,
  for_each (adi_row pop) adi0 lines = Ok adi ->
  forall zc,
    (pop !! zc = None -> adi !! zc = adi0 !! zc) /\
    (is_Some (pop !! zc) ->
     adi !! zc =
     (fun t => (fst t + sum_list (adi_values zc lines),
                snd t + Z.of_nat (length (adi_values zc lines)))) <$> adi0 !! zc).
Proof.
  induction lines as [|l ls IH]; intros adi0 adi H zc.
  - injection H as <-. cbn. split; [done|]. intros _.
    destruct (adi0 !! zc) as [[]|]; cbn; [|done]. do 2 f_equal; lia.
  - cbn in H. apply bind_Ok in H as (adi1 & H1 & H).
    destruct (IH _ _ H zc) as [IHn IHy].
    rewrite adi_values_cons.
    apply adi_row_Ok in H1.
    destruct (adi_code l) as [zc0|]; cbn.
    2:{ subst. destruct (decide _); [done|]. auto. }
    destruct (decide (Some zc0 = Some zc)) as [[= ->]|Hne].
    + destruct (pop !! zc) eqn:Hp.
      2:{ subst. split; [auto|]. by intros []. }
      destruct H1 as (t & Ht & _ & ->). split; [done|]. intros _.
      rewrite IHy by eauto.
      destruct (line_int 4 _) as [n|]; cbn; [|done].
      rewrite lookup_insert_eq, Ht. cbn. f_equal. unfold sum_list.
      f_equal; lia.
    + assert (zc0 ≠ zc) by congruence. cbn.
      destruct (pop !! zc0).
      2:{ subst. auto. }
      destruct H1 as (t & Ht & _ & ->).
      destruct (line_int 4 _); [|auto].
      rewrite lookup_insert_ne in IHn, IHy by done. auto.
Qed.

Lemma mean_loop_gen adi ks : forall pop0 pop,
  for_each (mean_step adi) pop0 ks = Ok pop ->
  forall zc,
    (zc ∉ ks -> pop !! zc = pop0 !! zc) /\
    (zc ∈ ks ->
     exists t, adi !! zc = Some t /\
       if 0 <? snd t then
         exists x e, py_truediv (fst t) (snd t) = Ok x /\ pop0 !! zc = Some e /\
                     pop !! zc = Some (set_adi e x)
       else pop !! zc = pop0 !! zc).
Proof.
  induction ks as [|k ks IH]; intros pop0 pop H zc.
  - injection H as <-. split; [done|]. intros Hin. by apply elem_of_nil in Hin.
  - cbn in H. apply bind_Ok in H as (pop1 & H1 & H).
    destruct (IH _ _ H zc) as [IHn IHy]. clear IH.
    unfold mean_step in H1.
    apply bind_Ok in H1 as (t & Ht & H1).
    unfold getitem in Ht. destruct (adi !! k) as [t'|] eqn:Hk; [|discriminate].
    injection Ht as ->.
    rewrite not_elem_of_cons, elem_of_cons.
    destruct (decide (zc = k)) as [->|Hne].
    + split; [intros []; done|]. intros _. exists t. split; [done|].
      destruct (0 <? snd t) eqn:Hc.
      * apply bind_Ok in H1 as (x & Hx & H1).
        apply bind_Ok in H1 as (e & He & H1).
        injection H1 as <-.
        unfold getitem in He. destruct (pop0 !! k) as [e'|] eqn:Hp; [|discriminate].
        injection He as ->.
        exists x, e. split; [done|]. split; [done|].
        destruct (decide (k ∈ ks)) as [Hin|Hnin].
        -- destruct (IHy Hin) as (t2 & Ht2 & Hy). rewrite Hk in Ht2.
           injection Ht2 as <-. rewrite Hc in Hy.
           destruct Hy as (x2 & e2 & Hx2 & He2 & ->).
           rewrite lookup_insert_eq in He2. injection He2 as <-.
           rewrite Hx in Hx2. injection Hx2 as <-. done.
        -- rewrite (IHn Hnin). by rewrite lookup_insert_eq.
      * injection H1 as <-.
        destruct (decide (k ∈ ks)) as [Hin|Hnin]; [|auto].
        destruct (IHy Hin) as (t2 & Ht2 & Hy). rewrite Hk in Ht2.
        injection Ht2 as <-. by rewrite Hc in Hy.
    + assert (pop1 !! zc = pop0 !! zc) as Heq.
      { destruct (0 <? snd t).
        - apply bind_Ok in H1 as (x & Hx & H1).
          apply bind_Ok in H1 as (e & He & H1).
          injection H1 as <-. by rewrite lookup_insert_ne.
        - by injection H1 as <-. }
      rewrite Heq in IHn, IHy. split.
      * intros [_ Hn]. auto.
      * intros [?|Hin]; [done|]. auto.
Qed.

(** ** Text *)


Lemma ascii_eqb_eq a b : ascii_eqb a b = true <-> a = b.
Proof. apply Ascii.eqb_eq. Qed.

Lemma ascii_eqb_neq a b : ascii_eqb a b = false <-> a ≠ b.
Proof. apply Ascii.eqb_neq. Qed.

Lemma split_app_sep sep (f r : str) :
  sep ∉ f -> split sep (f ++ sep :: r) = f :: split sep r.
Proof.
  induction f as [|c f IH]; intros Hn; cbn.
  - assert (ascii_eqb sep sep = true) as -> by by apply ascii_eqb_eq. done.
  - apply not_elem_of_cons in Hn as [Hc Hf].
    assert (ascii_eqb c sep = false) as -> by (apply ascii_eqb_neq; congruence).
    by rewrite IH.
Qed.

Lemma split_no_sep sep (f : str) : sep ∉ f -> split sep f = [f].
Proof.
  induction f as [|c f IH]; intros Hn; cbn; [done|].
  apply not_elem_of_cons in Hn as [Hc Hf].
  assert (ascii_eqb c sep = false) as -> by (apply ascii_eqb_neq; congruence).
  by rewrite IH.
Qed.

Lemma split_joined sep (fs : list str) :
  Forall (fun f => sep ∉ f) fs ->
  split sep (concat (map (fun f => f ++ [sep]) fs)) = fs ++ [[]].
Proof.
  induction 1 as [|f fs Hf _ IH]; cbn; [done|].
  rewrite <- app_assoc. cbn. rewrite split_app_sep by done. by rewrite IH.
Qed.

Lemma lines_keepends_line (b rest : str) :
  NL ∉ b -> lines_keepends (b ++ NL :: rest) = (b ++ [NL]) :: lines_keepends rest.
Proof.
  induction b as [|c b IH]; intros Hn.
  - done.
  - apply not_elem_of_cons in Hn as [Hc Hb]. cbn.
    assert (ascii_eqb c NL = false) as -> by (apply ascii_eqb_neq; congruence).
    rewrite IH by done. by destruct b.
Qed.

Lemma remove_char_line (b : str) : NL ∉ b -> remove_char NL (b ++ [NL]) = b.
Proof.
  unfold remove_char. induction b as [|c b IH]; intros Hn; cbn; [done|].
  apply not_elem_of_cons in Hn as [Hc Hb].
  assert (ascii_eqb c NL = false) as -> by (apply ascii_eqb_neq; congruence).
  cbn. by rewrite IH.
Qed.

Lemma repr_char_plain c : repr_char c = true -> c ≠ TAB /\ c ≠ NL.
Proof. intros H. split; intros ->; vm_compute in H; discriminate. Qed.

Lemma uint_chars_digits d : Forall (fun c => isdigit c = true) (uint_chars d).
Proof. induction d; cbn; constructor; auto. Qed.

Lemma isdigit_repr c : isdigit c = true -> repr_char c = true.
Proof. unfold repr_char. by intros ->. Qed.

Lemma str_of_Z_repr z : Forall (fun c => repr_char c = true) (str_of_Z z).
Proof.
  destruct z; cbn.
  - by repeat constructor.
  - eapply Forall_impl; [apply uint_chars_digits|]. apply isdigit_repr.
  - constructor; [done|].
    eapply Forall_impl; [apply uint_chars_digits|]. apply isdigit_repr.
Qed.

Lemma strip_zeros_rev_suffix s : strip_zeros_rev s `suffix_of` s.
Proof.
  induction s as [|c s IH]; cbn; [done|].
  destruct (ascii_eqb c "0"); [|done]. by apply suffix_cons_r.
Qed.

Lemma strip_trailing_zeros_repr s :
  Forall (fun c => repr_char c = true) s ->
  Forall (fun c => repr_char c = true) (strip_trailing_zeros s).
Proof.
  intros H. unfold strip_trailing_zeros. apply Forall_rev.
  destruct (strip_zeros_rev_suffix (rev s)) as [k Hk].
  apply Forall_rev in H. rewrite Hk in H. by apply Forall_app in H as [_ H].
Qed.

Lemma exponent_chars_repr x : Forall (fun c => repr_char c = true) (exponent_chars x).
Proof.
  unfold exponent_chars. constructor; [by destruct (x <? 0)|].
  destruct (_ <? _)%nat; [constructor; [done|]|]; apply str_of_Z_repr.
Qed.

Lemma layout_digits_repr ds decpt :
  Forall (fun c => repr_char c = true) ds ->
  Forall (fun c => repr_char c = true) (layout_digits ds decpt).
Proof.
  intros H. unfold layout_digits.
  destruct (_ || _).
  - destruct ds as [|d [|d' rest]]; [done| |].
    + inversion H; subst. constructor; [done|]. constructor; [done|].
      apply exponent_chars_repr.
    + inversion H; subst. constructor; [done|]. constructor; [done|].
      apply Forall_app. split; [done|]. constructor; [done|].
      apply exponent_chars_repr.
  - destruct (decpt <=? 0).
    + do 2 (constructor; [done|]). apply Forall_app. split; [|done].
      apply Forall_forall. intros c Hc. apply list_elem_of_In, repeat_spec in Hc. by subst.
    + destruct (_ <=? _).
      * apply Forall_app. split; [done|]. apply Forall_app. split.
        -- apply Forall_forall. intros c Hc. apply list_elem_of_In, repeat_spec in Hc. by subst.
        -- by repeat constructor.
      * apply Forall_app. split; [by apply Forall_take|].
        constructor; [done|]. by apply Forall_drop.
Qed.

Lemma float_repr_repr x : Forall (fun c => repr_char c = true) (float_repr x).
Proof.
  destruct x as [[]|[]| |neg m e]; cbn -[shortest_from]; try by repeat constructor.
  destruct (shortest_from _ _ _ _ _) as [c s].
  assert (Forall (fun c => repr_char c = true)
            (layout_digits (strip_trailing_zeros (str_of_Z c)) (Z.of_nat (length (str_of_Z c)) + s))).
  { apply layout_digits_repr, strip_trailing_zeros_repr, str_of_Z_repr. }
  destruct neg; [constructor|]; done.
Qed.

Lemma py_str_repr v : Forall (fun c => repr_char c = true) (py_str v).
Proof. destruct v; [apply str_of_Z_repr|apply float_repr_repr]. Qed.

Lemma repr_no_tab s : Forall (fun c => repr_char c = true) s -> TAB ∉ s.
Proof.
  intros H Hin. rewrite Forall_forall in H. apply H in Hin. by apply repr_char_plain in Hin as [].
Qed.

Lemma repr_no_nl s : Forall (fun c => repr_char c = true) s -> NL ∉ s.
Proof.
  intros H Hin. rewrite Forall_forall in H. apply H in Hin. by apply repr_char_plain in Hin as [].
Qed.

(** ** Integers as text *)


Lemma int_digits_acc d : forall acc,
  int_digits (Zpos acc) true (uint_chars d) = Ok (Zpos (Pos.of_uint_acc d acc)).
Proof.
  induction d; intros acc; cbn [uint_chars Pos.of_uint_acc]; [done|..];
    (cbn [int_digits];
     match goal with |- context [isdigit ?c] => change (isdigit c) with true end;
     cbn match; rewrite <- IHd; f_equal;
     match goal with |- context [digit_val ?c] =>
       let v := eval vm_compute in (digit_val c) in change (digit_val c) with v end;
     lia).
Qed.

Lemma int_digits_zero d :
  int_digits 0 true (uint_chars d) = Ok (Z.of_N (Pos.of_uint d)).
Proof.
  induction d; cbn [uint_chars Pos.of_uint]; [done|..];
    (cbn [int_digits];
     match goal with |- context [isdigit ?c] => change (isdigit c) with true end;
     cbn match; first [exact IHd | apply int_digits_acc]).
Qed.

Lemma int_digits_first acc c r :
  isdigit c = true -> int_digits acc false (c :: r) = int_digits acc true (c :: r).
Proof. intros H. cbn. by rewrite H. Qed.

Lemma pos_chars_digits p : Forall (fun c => isdigit c = true) (pos_chars p).
Proof.
  unfold pos_chars. generalize (Pos.to_uint p). induction u; cbn; constructor; auto.
Qed.

Lemma pos_chars_nonnil p : pos_chars p ≠ [].
Proof.
  unfold pos_chars. pose proof (Unsigned.to_uint_nonnil p) as H.
  destruct (Pos.to_uint p); cbn; congruence.
Qed.

Lemma int_digits_pos_chars p : int_digits 0 false (pos_chars p) = Ok (Zpos p).
Proof.
  pose proof (pos_chars_digits p) as Hd. pose proof (pos_chars_nonnil p) as Hn.
  destruct (pos_chars p) as [|c r] eqn:E; [done|].
  inversion Hd; subst. rewrite int_digits_first by done. rewrite <- E.
  unfold pos_chars. rewrite int_digits_zero, Unsigned.of_to. done.
Qed.

Lemma lstrip_id (s : str) :
  match s with c :: _ => isspace c = false | [] => True end -> lstrip s = s.
Proof. destruct s; cbn; [done|]. by intros ->. Qed.

Lemma strip_id (s : str) :
  Forall (fun c => isspace c = false) s -> strip s = s.
Proof.
  intros H. unfold strip. rewrite (lstrip_id s).
  2:{ destruct s; [done|]. by inversion H. }
  rewrite lstrip_id; [apply rev_involutive|].
  apply Forall_rev in H. destruct (rev s); [done|]. by inversion H.
Qed.

Lemma repr_char_not_space c : isdigit c = true \/ c = "-"%char -> isspace c = false.
Proof.
  intros [H| ->]; [|done].
  unfold isdigit, isspace in *. 
  destruct (nat_of_ascii c) as [|n]; [done|].
  apply andb_true_iff in H as [H1 H2].
  apply Nat.leb_le in H1, H2.
  apply orb_false_iff. split.
  - apply andb_false_iff. right. apply Nat.leb_gt. lia.
  - apply Nat.eqb_neq. lia.
Qed.

Lemma py_int_str_of_Z z : py_int (str_of_Z z) = Ok z.
Proof.
  unfold py_int. rewrite strip_id.
  2:{ destruct z; cbn.
      - by repeat constructor.
      - eapply Forall_impl; [apply pos_chars_digits|].
        intros c Hc. apply repr_char_not_space. auto.
      - constructor; [done|]. eapply Forall_impl; [apply pos_chars_digits|].
        intros c Hc. apply repr_char_not_space. auto. }
  destruct z as [|p|p]; cbn [str_of_Z].
  - done.
  - pose proof (pos_chars_digits p) as Hd. pose proof (int_digits_pos_chars p) as Hi.
    destruct (pos_chars p) as [|c r]; [done|]. inversion Hd; subst.
    destruct (ascii_eqb c "-") eqn:E1.
    { apply Ascii.eqb_eq in E1. subst. done. }
    destruct (ascii_eqb c "+") eqn:E2.
    { apply Ascii.eqb_eq in E2. subst. done. }
    done.
  - change (ascii_eqb "-" "-") with true. cbn match.
    rewrite int_digits_pos_chars. done.
Qed.

Lemma str_of_Z_inj a b : str_of_Z a = str_of_Z b -> a = b.
Proof.
  intros H. pose proof (py_int_str_of_Z a) as Ha. rewrite H, py_int_str_of_Z in Ha. congruence.
Qed.

(** ** Sorted keys *)


Lemma elem_of_keys {V} (d : gmap Z V) zc : zc ∈ keys d <-> is_Some (d !! zc).
Proof.
  unfold keys. rewrite list_elem_of_fmap. split.
  - intros ([k v] & -> & Hin). apply elem_of_map_to_list in Hin. eauto.
  - intros [v Hv]. exists (zc, v). split; [done|]. by apply elem_of_map_to_list.
Qed.

Lemma NoDup_keys {V} (d : gmap Z V) : NoDup (keys d).
Proof. apply NoDup_fst_map_to_list. Qed.

Lemma sorted_keys_perm {V} (d : gmap Z V) : sorted_keys d ≡ₚ keys d.
Proof. apply merge_sort_Permutation. Qed.

Lemma elem_of_sorted_keys {V} (d : gmap Z V) zc :
  zc ∈ sorted_keys d <-> is_Some (d !! zc).
Proof. rewrite sorted_keys_perm. apply elem_of_keys. Qed.

Lemma NoDup_sorted_keys {V} (d : gmap Z V) : NoDup (sorted_keys d).
Proof. rewrite sorted_keys_perm. apply NoDup_keys. Qed.

Lemma StronglySorted_le_lt (l : list Z) :
  StronglySorted Z.le l -> NoDup l -> StronglySorted Z.lt l.
Proof.
  induction 1 as [|x l Hs IH Hx]; intros Hnd; [constructor|].
  apply NoDup_cons in Hnd as [Hni Hnd]. constructor; [auto|].
  rewrite Forall_forall in *. intros y Hy.
  specialize (Hx y Hy). assert (x ≠ y) by (intros ->; done). lia.
Qed.

Lemma sorted_keys_ascending {V} (d : gmap Z V) :
  StronglySorted Z.lt (sorted_keys d).
Proof.
  apply StronglySorted_le_lt; [|apply NoDup_sorted_keys].
  apply StronglySorted_merge_sort; apply _.
Qed.

(** *** The lines of the population file *)

Lemma pop_line_eq i zc e :
  pop_line i zc e =
  concat (map (fun f => f ++ [TAB])
              ([str_of_Z (Z.of_nat i); str_of_Z zc] ++ map py_str (items e)))
    ++ [NL].
Proof. unfold pop_line. cbn. by rewrite <- !app_assoc. Qed.

Lemma row_fields_repr i zc e :
  Forall (Forall (fun c => repr_char c = true))
         ([str_of_Z (Z.of_nat i); str_of_Z zc] ++ map py_str (items e)).
Proof.
  repeat constructor; try apply str_of_Z_repr; try apply py_str_repr.
Qed.

Lemma concat_repr (fs : list str) :
  Forall (Forall (fun c => repr_char c = true)) fs ->
  NL ∉ concat (map (fun f => f ++ [TAB]) fs).
Proof.
  induction 1 as [|f fs Hf _ IH]; cbn; [apply not_elem_of_nil|].
  rewrite !not_elem_of_app. split; [split|done].
  - by apply repr_no_nl.
  - apply not_elem_of_cons. split; [done|apply not_elem_of_nil].
Qed.

Lemma pop_line_split i zc e :
  split TAB (remove_char NL (pop_line i zc e)) = row_fields i zc e.
Proof.
  rewrite pop_line_eq. pose proof (row_fields_repr i zc e) as H.
  rewrite remove_char_line by by apply concat_repr.
  rewrite split_joined.
  - unfold row_fields. by rewrite <- app_assoc.
  - eapply Forall_impl; [exact H|]. intros f. apply repr_no_tab.
Qed.

Lemma lines_pop_line i zc e rest :
  lines_keepends (pop_line i zc e ++ rest) = pop_line i zc e :: lines_keepends rest.
Proof.
  rewrite pop_line_eq. rewrite <- app_assoc. cbn [app].
  apply lines_keepends_line. apply concat_repr, row_fields_repr.
Qed.

Lemma pop_lines_Ok pop sk : forall i body,
  pop_lines pop i sk = Ok body ->
  Forall (fun zc => is_Some (pop !! zc)) sk /\
  map (fun l => split TAB (remove_char NL l)) (lines_keepends body) =
  imap (fun j zc => row_fields (i + j) zc (default new_entry (pop !! zc))) sk.
Proof.
  induction sk as [|zc sk IH]; intros i body H; cbn in H.
  - injection H as <-. done.
  - apply bind_Ok in H as (e & He & H).
    apply bind_Ok in H as (rest & Hr & H).
    injection H as <-.
    unfold getitem in He. destruct (pop !! zc) as [e'|] eqn:Hl; [|discriminate].
    injection He as ->.
    destruct (IH _ _ Hr) as [IH1 IH2]. split; [constructor; eauto|].
    rewrite lines_pop_line. cbn [map]. rewrite pop_line_split, IH2, imap_cons.
    rewrite Hl. cbn. rewrite Nat.add_0_r. f_equal.
    apply imap_ext. intros j x _. cbn. by rewrite Nat.add_succ_r.
Qed.

Lemma pop_lines_total pop sk : forall i,
  Forall (fun zc => is_Some (pop !! zc)) sk ->
  exists body, pop_lines pop i sk = Ok body.
Proof.
  induction sk as [|zc sk IH]; intros i H; cbn; [eauto|].
  apply Forall_cons in H as [[e He] H].
  destruct (IH (S i) H) as [rest Hr].
  unfold getitem. rewrite He, Hr. cbn. eauto.
Qed.

Lemma POP_HEADER_line rest :
  lines_keepends (POP_HEADER ++ rest) = POP_HEADER :: lines_keepends rest.
Proof.
  assert (exists b, POP_HEADER = b ++ [NL] /\ NL ∉ b) as (b & -> & Hb).
  { eexists (removelast POP_HEADER). split; [done|].
    vm_compute. intros H. repeat (apply elem_of_cons in H as [H|H]; [discriminate|]).
    by apply elem_of_nil in H. }
  rewrite <- app_assoc. cbn [app]. by apply lines_keepends_line.
Qed.

Lemma data_rows_output body :
  data_rows (POP_HEADER ++ body) =
  map (fun l => split TAB (remove_char NL l)) (lines_keepends body).
Proof. unfold data_rows, tsv_rows. by rewrite POP_HEADER_line. Qed.

Lemma find_row (E : Z -> entry) sk : forall i j zc,
  NoDup sk -> sk !! j = Some zc ->
  List.find (fun r => bool_decide (r !! 1%nat = Some (str_of_Z zc)))
            (imap (fun j zc => row_fields (i + j) zc (E zc)) sk)
  = Some (row_fields (i + j) zc (E zc)).
Proof.
  induction sk as [|zc0 sk IH]; intros i j zc Hnd Hj; [done|].
  apply NoDup_cons in Hnd as [Hni Hnd]. rewrite imap_cons. cbn [List.find].
  destruct j as [|j]; cbn in Hj.
  - injection Hj as ->. cbn. rewrite bool_decide_eq_true_2 by done.
    by rewrite Nat.add_0_r.
  - assert (zc0 ≠ zc) as Hne.
    { intros ->. apply Hni. by eapply list_elem_of_lookup_2. }
    cbn. rewrite bool_decide_eq_false_2.
    2:{ intros [= Heq]. by apply str_of_Z_inj in Heq. }
    rewrite (imap_ext _ (fun j zc => row_fields (S i + j) zc (E zc))).
    2:{ intros k x _. cbn. by rewrite Nat.add_succ_r. }
    rewrite (IH (S i) j zc Hnd Hj). by rewrite Nat.add_succ_r.
Qed.

(** ** The run as a whole *)


Lemma foldl_max_init (l : list Z) : forall a b,
  foldl Z.max (Z.max a b) l = Z.max a (foldl Z.max b l).
Proof.
  induction l as [|x l IH]; intros a b; cbn; [done|].
  rewrite <- IH. f_equal. lia.
Qed.

Lemma foldl_max_list (l : list Z) : foldl Z.max 0 l = max_list l.
Proof.
  unfold max_list. induction l as [|x l IH]; cbn; [done|].
  rewrite <- IH, <- foldl_max_init. f_equal. lia.
Qed.

Lemma pop_lines_concat pop sk : forall i body,
  pop_lines pop i sk = Ok body ->
  Forall (fun zc => is_Some (pop !! zc)) sk /\
  body = concat (imap (fun j zc => pop_line (i + j) zc (default new_entry (pop !! zc))) sk).
Proof.
  induction sk as [|zc sk IH]; intros i body H; cbn in H.
  - injection H as <-. done.
  - apply bind_Ok in H as (e & He & H).
    apply bind_Ok in H as (rest & Hr & H).
    injection H as <-.
    unfold getitem in He. destruct (pop !! zc) as [e'|] eqn:Hl; [|discriminate].
    injection He as ->.
    destruct (IH _ _ Hr) as [IH1 IH2]. split; [constructor; eauto|].
    rewrite imap_cons. cbn [concat]. rewrite Hl. cbn. rewrite Nat.add_0_r. f_equal.
    rewrite IH2. f_equal. apply imap_ext. intros j x _. cbn. by rewrite Nat.add_succ_r.
Qed.

Lemma lines_concat_pop_lines (E : Z -> entry) sk : forall i,
  lines_keepends (concat (imap (fun j zc => pop_line (i + j) zc (E zc)) sk)) =
  imap (fun j zc => pop_line (i + j) zc (E zc)) sk.
Proof.
  induction sk as [|zc sk IH]; intros i; [done|].
  rewrite imap_cons. cbn [concat]. rewrite lines_pop_line. f_equal.
  rewrite (imap_ext _ (fun j zc => pop_line (S i + j) zc (E zc))).
  2:{ intros k x _. cbn. by rewrite Nat.add_succ_r. }
  apply IH.
Qed.

Lemma data_rows_pop_lines (E : Z -> entry) sk :
  data_rows (POP_HEADER ++ concat (imap (fun j zc => pop_line j zc (E zc)) sk)) =
  imap (fun j zc => row_fields j zc (E zc)) sk.
Proof.
  rewrite data_rows_output.
  pose proof (lines_concat_pop_lines E sk 0) as H. cbn in H. rewrite H.
  change (map ?f ?l) with (f <$> l).
  rewrite fmap_imap. apply imap_ext. intros j zc _. cbn. apply pop_line_split.
Qed.

Lemma ingest_adi_inv pop lines pop' :
  ingest_adi pop lines = Ok pop' ->
  forall zc,
    match pop !! zc with
    | None => pop' !! zc = None
    | Some e =>
        match adi_values zc lines with
        | [] => pop' !! zc = Some e
        | vals =>
            exists x, py_truediv (sum_list vals) (Z.of_nat (length vals)) = Ok x /\
                      pop' !! zc = Some (set_adi e x)
        end
    end.
Proof.
  unfold ingest_adi. intros H zc.
  apply bind_Ok in H as (adi & Ht & Hm).
  destruct (tally_gen _ _ _ _ Ht zc) as [Tn Ty].
  destruct (mean_loop_gen _ _ _ _ Hm zc) as [Mn My].
  rewrite elem_of_keys in Mn, My.
  destruct (pop !! zc) as [e|] eqn:Hp.
  - destruct (My ltac:(eauto)) as (t & Hadi & Hc).
    rewrite Ty in Hadi by eauto. rewrite lookup_fmap, Hp in Hadi.
    cbn in Hadi. injection Hadi as <-. cbn in Hc.
    destruct (adi_values zc lines) as [|v vals] eqn:Ev.
    + cbn in Hc. done.
    + replace (0 <? 0 + Z.of_nat (length (v :: vals))) with true in Hc.
      2:{ symmetry. apply Z.ltb_lt. cbn [length]. lia. }
      destruct Hc as (x & e' & Hx & [= <-] & Hp').
      exists x. rewrite !Z.add_0_l in Hx. done.
  - apply Mn. by intros [? ?].
Qed.

Lemma ingest_cases_inv lines pop :
  ingest_cases lines = Ok pop ->
  forall zc,
    (is_Some (pop !! zc) <-> zc ∈ case_codes lines) /\
    (forall e, pop !! zc = Some e ->
       exists lat lon,
         last (case_coords zc lines) = Some (lat, lon) /\
         e = Entry (PFloat lat) (PFloat lon) (max_list (case_counts zc lines)) 0 (PInt 0)).
Proof.
  unfold ingest_cases. intros H zc.
  destruct (ingest_cases_gen _ _ _ H zc) as [Hn Hy].
  rewrite lookup_empty in Hn, Hy. cbn in Hy.
  destruct (decide (zc ∈ case_codes lines)) as [Hin|Hnin].
  - destruct (Hy Hin) as (lat & lon & Hl & Hp). rewrite Hp. split; [by eauto|].
    intros e [= <-]. exists lat, lon. by rewrite foldl_max_list.
  - rewrite (Hn Hnin). split; [split; [by intros []|done]|done].
Qed.

Lemma run_inv c v a out fac :
  process_chicago c v a = Ok (out, fac) ->
  exists pop : gmap Z entry,
    (forall zc, is_Some (pop !! zc) <-> zc ∈ case_codes (file_lines c)) /\
    (forall zc e, pop !! zc = Some e ->
                  entry_spec (file_lines c) (file_lines v) (file_lines a) zc e) /\
    out = POP_HEADER ++
          concat (imap (fun j zc => pop_line j zc (default new_entry (pop !! zc)))
                       (sorted_keys pop)) /\
    fac = FAC_HEADER.
Proof.
  unfold process_chicago. intros H.
  apply bind_Ok in H as (pop1 & H1 & H).
  apply bind_Ok in H as (pop2 & H2 & H).
  apply bind_Ok in H as (pop3 & H3 & H).
  apply bind_Ok in H as (body & Hb & H).
  injection H as <- <-.
  exists pop3.
  pose proof (ingest_cases_inv _ _ H1) as I1.
  pose proof (ingest_vacc_gen _ _ _ H2) as I2.
  pose proof (ingest_adi_inv _ _ _ H3) as I3.
  apply pop_lines_concat in Hb as [_ ->].
  split; [|split; [|done]].
  - intros zc. destruct (I1 zc) as [<- _]. specialize (I2 zc). specialize (I3 zc).
    rewrite I2 in I3. destruct (pop1 !! zc) as [e1|]; cbn in I3.
    + destruct (adi_values zc (file_lines a)).
      * rewrite I3. split; eauto.
      * destruct I3 as (x & _ & ->). split; eauto.
    + rewrite I3. done.
  - intros zc e He. destruct (I1 zc) as [_ I1']. specialize (I2 zc). specialize (I3 zc).
    rewrite I2 in I3. destruct (pop1 !! zc) as [e1|]; cbn in I3.
    2:{ congruence. }
    destruct (I1' e1 eq_refl) as (lat & lon & Hl & ->).
    unfold entry_spec.
    destruct (adi_values zc (file_lines a)) as [|w ws].
    + rewrite I3 in He. injection He as <-. cbn.
      split; [by eauto|]. split; [done|]. split; [lia|done].
    + destruct I3 as (x & Hx & I3). rewrite I3 in He. injection He as <-. cbn.
      split; [by eauto|]. split; [done|]. split; [lia|]. eauto.
Qed.

Lemma sample_run :
  process_chicago sample_case sample_vacc sample_adi
  = Ok (sample_pop_out, FAC_HEADER).
Proof. vm_compute. reflexivity. Qed.

(** ** The claims about the set and the order of the rows *)


Lemma for_each_Forall {S A} (body : S -> A -> result S) l : forall st st',
  for_each body st l = Ok st' ->
  Forall (fun a => exists s s', body s a = Ok s') l.
Proof.
  induction l as [|a l IH]; intros st st' H; [constructor|].
  cbn in H. apply bind_Ok in H as (st1 & H1 & H).
  constructor; eauto.
Qed.

Lemma case_rows_parse lines pop :
  ingest_cases lines = Ok pop ->
  Forall (fun l => is_data_line l = true ->
                   is_Some (line_code l) /\ is_Some (line_coords l) /\
                   is_Some (line_int 18 l)) lines.
Proof.
  intros H. apply for_each_Forall in H.
  eapply Forall_impl; [exact H|]. cbn.
  intros l (s & s' & Hs) Hd.
  apply case_row_Ok in Hs as [[Hd' _]|(zc & lat & lon & n & -> & -> & -> & _)].
  - congruence.
  - eauto.
Qed.

Lemma run_case_rows c v a r :
  process_chicago c v a = Ok r ->
  exists pop, ingest_cases (file_lines c) = Ok pop.
Proof.
  unfold process_chicago. intros H. apply bind_Ok in H as (pop & H & _). eauto.
Qed.

Lemma int_column_codes (E : Z -> entry) sk out :
  data_rows out = imap (fun j zc => row_fields j zc (E zc)) sk ->
  int_column 1 out = map Some sk.
Proof.
  intros H. unfold int_column. rewrite H.
  change (map ?f ?l) with (f <$> l). rewrite fmap_imap.
  rewrite <- (imap_const Some sk). apply imap_ext.
  intros j zc _. cbn. by rewrite py_int_str_of_Z.
Qed.

Lemma int_column_ids (E : Z -> entry) sk out :
  data_rows out = imap (fun j zc => row_fields j zc (E zc)) sk ->
  int_column 0 out = map (fun i => Some (Z.of_nat i)) (seq 0 (length sk)).
Proof.
  intros H. unfold int_column. rewrite H.
  change (map ?f ?l) with (f <$> l). rewrite fmap_imap.
  apply list_eq. intros j.
  rewrite list_lookup_imap, list_lookup_fmap.
  destruct (sk !! j) as [zc|] eqn:Hj; cbn.
  - rewrite lookup_seq_lt by (by eapply lookup_lt_Some). cbn.
    by rewrite py_int_str_of_Z.
  - rewrite lookup_seq_ge by (by apply lookup_ge_None). done.
Qed.

(** C3.  In every run that writes its output, the postal codes in the
    name column of the population file are pairwise different and are
    exactly the codes of the data rows of the case file; every data row
    of the case file carries a code.  Nothing comes from the vaccination
    or ADI files. *)
Theorem population_codes_exact (c v a out fac : str) :
  process_chicago c v a = Ok (out, fac) ->
  exists codes : list Z,
    int_column 1 out = map Some codes /\
    NoDup codes /\
    (forall zc, zc ∈ codes <-> zc ∈ case_codes (file_lines c)) /\
    Forall (fun l => is_data_line l = true -> is_Some (line_code l))
           (file_lines c).
Proof.
  intros H. destruct (run_case_rows _ _ _ _ H) as [pop0 H0].
  apply run_inv in H as (pop & Hdom & _ & -> & _).
  exists (sorted_keys pop). split; [|split; [|split]].
  - eapply int_column_codes, data_rows_pop_lines.
  - apply NoDup_sorted_keys.
  - intros zc. rewrite elem_of_sorted_keys. apply Hdom.
  - eapply Forall_impl; [apply (case_rows_parse _ _ H0)|].
    cbn. intros l Hl Hd. by apply Hl.
Qed.

(** C4.  In every run that writes its output, the codes in the name
    column are strictly ascending from row to row, and the id column
    counts the rows 0, 1, ..., n-1 in that order. *)
Theorem population_rows_sorted (c v a out fac : str) :
  process_chicago c v a = Ok (out, fac) ->
  exists codes : list Z,
    int_column 1 out = map Some codes /\
    StronglySorted Z.lt codes /\
    int_column 0 out = map (fun i => Some (Z.of_nat i)) (seq 0 (length codes)).
Proof.
  intros H. apply run_inv in H as (pop & _ & _ & -> & _).
  exists (sorted_keys pop). split; [|split].
  - eapply int_column_codes, data_rows_pop_lines.
  - apply sorted_keys_ascending.
  - eapply int_column_ids, data_rows_pop_lines.
Qed.

(** ** The claims about the fields of a row *)


Lemma out_field_pop (pop : gmap Z entry) zc e col :
  pop !! zc = Some e ->
  out_field (POP_HEADER ++
             concat (imap (fun j zc => pop_line j zc (default new_entry (pop !! zc)))
                          (sorted_keys pop))) zc (S col)
  = (str_of_Z zc :: map py_str (items e) ++ [[]]) !! col.
Proof.
  intros He. unfold out_field.
  rewrite (data_rows_pop_lines (fun zc => default new_entry (pop !! zc))).
  assert (zc ∈ sorted_keys pop) as Hin by (apply elem_of_sorted_keys; eauto).
  apply list_elem_of_lookup_1 in Hin as [j Hj].
  rewrite (find_row _ _ 0 j zc (NoDup_sorted_keys pop) Hj).
  rewrite He. done.
Qed.

Lemma run_fields c v a out fac zc :
  process_chicago c v a = Ok (out, fac) ->
  zc ∈ case_codes (file_lines c) ->
  exists e,
    entry_spec (file_lines c) (file_lines v) (file_lines a) zc e /\
    forall col, out_field out zc (S col)
                = (str_of_Z zc :: map py_str (items e) ++ [[]]) !! col.
Proof.
  intros H Hin. apply run_inv in H as (pop & Hdom & Hspec & -> & _).
  apply Hdom in Hin as [e He]. exists e. split; [eauto|].
  intros col. by apply out_field_pop.
Qed.







Lemma rows_of_perm {A} (f : str -> option A) zc (l l' : list str) :
  l ≡ₚ l' -> rows_of f zc l ≡ₚ rows_of f zc l'.
Proof. intros H. unfold rows_of. by rewrite H. Qed.





Lemma line_code_Some line zc :
  line_code line = Some zc ->
  exists c s0, subscript line 0 = Ok c /\ isdigit c = true /\
               subscript (split "," line) 0 = Ok s0 /\ py_int s0 = Ok zc.
Proof.
  unfold line_code. destruct line as [|c r]; [done|]. cbn [is_data_line].
  destruct (isdigit c) eqn:Hd; [|done].
  destruct (subscript (split "," (c :: r)) 0) as [s0|] eqn:Hs; cbn; [|done].
  intros H%to_option_Some. exists c, s0. done.
Qed.

Lemma vacc_row_data pop line zc :
  line_code line = Some zc ->
  vacc_row pop line =
  (getitem pop zc ≫= fun e =>
   subscript (split "," line) 4 ≫= fun s4 =>
   match py_int s4 with
   | Ok n => Ok (<[zc := set_vacc e (e_vacc e + n)]> pop)
   | Err ValueError => Ok pop
   | Err x => Err x
   end).
Proof.
  intros (c & s0 & Hc & Hd & Hs & Hz)%line_code_Some.
  unfold vacc_row. rewrite Hc. cbn. rewrite Hd. cbn. rewrite Hs. cbn. by rewrite Hz.
Qed.

Lemma vacc_rows_known lines pop0 pop :
  for_each vacc_row pop0 lines = Ok pop ->
  Forall (fun l => is_data_line l = true ->
                   exists zc, line_code l = Some zc /\ is_Some (pop0 !! zc)) lines.
Proof.
  revert pop0. induction lines as [|l ls IH]; intros pop0 H; [constructor|].
  cbn in H. apply bind_Ok in H as (pop1 & H1 & H).
  pose proof (ingest_vacc_gen [l] pop0 pop1) as Hk. cbn in Hk. rewrite H1 in Hk.
  specialize (Hk eq_refl).
  constructor.
  - intros Hd. apply vacc_row_Ok in H1 as [[Hd' _]|(zc & e & Hc & He & _)];
      [congruence|eauto].
  - eapply Forall_impl; [apply (IH _ H)|]. cbn.
    intros x Hx Hd. destruct (Hx Hd) as (zc & Hc & Hs). exists zc. split; [done|].
    rewrite Hk in Hs. by apply fmap_is_Some in Hs.
Qed.

(** C6.  In every run that writes its output, the vacc field of a code of
    the case file is the sum of the numeric values in column 4 of the
    vaccination rows of that code; every vaccination row carries a code
    of the case file; and a row of a known code whose column 4 is not
    numeric leaves the records as they are and lets the loop go on. *)
Theorem vacc_field_sum (c v a out fac : str) (zc : Z) :
  process_chicago c v a = Ok (out, fac) ->
  zc ∈ case_codes (file_lines c) ->
  out_field out zc 5
  = Some (str_of_Z (sum_list (vacc_values zc (file_lines v)))) /\
  Forall (fun l => is_data_line l = true ->
                   exists zc', line_code l = Some zc' /\
                               zc' ∈ case_codes (file_lines c))
         (file_lines v) /\
  (forall (pop : gmap Z entry) line zc' e s4,
      line_code line = Some zc' -> pop !! zc' = Some e ->
      split ","%char line !! 4%nat = Some s4 ->
      py_int s4 = Err ValueError ->
      vacc_row pop line = Ok pop).
Proof.
  intros H Hin. split; [|split].
  - destruct (run_fields _ _ _ _ _ _ H Hin) as (e & (_ & _ & Hv & _) & Hf).
    rewrite (Hf 4%nat). cbn. by rewrite Hv.
  - unfold process_chicago in H.
    apply bind_Ok in H as (pop1 & H1 & H).
    apply bind_Ok in H as (pop2 & H2 & _).
    eapply Forall_impl; [apply (vacc_rows_known _ _ _ H2)|]. cbn.
    intros l Hl Hd. destruct (Hl Hd) as (zc' & Hc & Hs). exists zc'. split; [done|].
    by apply (ingest_cases_inv _ _ H1 zc').
  - intros pop line zc' e s4 Hc He Hs Hp.
    rewrite (vacc_row_data _ _ _ Hc). unfold getitem, subscript.
    rewrite He, Hs. cbn. by rewrite Hp.
Qed.

(** C7.  In every run that writes its output, the adi field of a code of
    the case file is the text 0 when no ADI line whose parent code (the
    first five characters of the sub-code) is that code has a numeric
    column 4, and otherwise the float quotient of the sum of those
    numeric values by their number. *)
Theorem adi_field_mean (c v a out fac : str) (zc : Z) :
  process_chicago c v a = Ok (out, fac) ->
  zc ∈ case_codes (file_lines c) ->
  match adi_values zc (file_lines a) with
  | [] => out_field out zc 6 = Some (str_of_Z 0)
  | vals =>
      exists x,
        py_truediv (sum_list vals) (Z.of_nat (length vals)) = Ok x /\
        out_field out zc 6 = Some (float_repr x)
  end.
Proof.
  intros H Hin.
  destruct (run_fields _ _ _ _ _ _ H Hin) as (e & (_ & _ & _ & Ha) & Hf).
  rewrite (Hf 5%nat). cbn.
  destruct (adi_values zc (file_lines a)) as [|w ws].
  - by rewrite Ha.
  - destruct Ha as (x & Hx & ->). eauto.
Qed.

(** C10.  In every run that writes its output, the lat and lon fields of
    a code are the coordinates of the last data row of that code in the
    case file (every data row of the code has coordinates).  Two case
    files with the same lines in a different order can therefore give
    different lat and lon fields, while they give the same pop field. *)
Theorem coords_from_last_row :
  (forall (c v a out fac : str) (zc : Z),
      process_chicago c v a = Ok (out, fac) ->
      zc ∈ case_codes (file_lines c) ->
      Forall (fun l => line_code l = Some zc -> is_Some (line_coords l))
             (file_lines c) /\
      exists lat lon,
        last (case_coords zc (file_lines c)) = Some (lat, lon) /\
        out_field out zc 2 = Some (float_repr lat) /\
        out_field out zc 3 = Some (float_repr lon)) /\
  (exists (c c' out out' fac fac' : str) (zc : Z),
      file_lines c' ≡ₚ file_lines c /\
      process_chicago c [] [] = Ok (out, fac) /\
      process_chicago c' [] [] = Ok (out', fac') /\
      out_field out' zc 2 ≠ out_field out zc 2 /\
      out_field out' zc 3 ≠ out_field out zc 3 /\
      out_field out' zc 4 = out_field out zc 4).
Proof.
  split.
  - intros c v a out fac zc H Hin. split.
    + destruct (run_case_rows _ _ _ _ H) as [pop0 H0].
      eapply Forall_impl; [apply (case_rows_parse _ _ H0)|]. cbn.
      intros l Hl Hc. apply Hl. unfold line_code in Hc.
      destruct (is_data_line l); [done|discriminate].
    + destruct (run_fields _ _ _ _ _ _ H Hin)
        as (e & ((lat & lon & Hl & Hlat & Hlon) & _) & Hf).
      exists lat, lon. split; [done|].
      rewrite (Hf 1%nat), (Hf 2%nat). cbn. by rewrite Hlat, Hlon.
  - exists two_rows, two_rows_swapped.
    eexists _, _, _, _, 60601.
    split; [|split; [|split]].
    + vm_compute. apply perm_swap.
    + vm_compute. reflexivity.
    + vm_compute. reflexivity.
    + vm_compute. repeat split; congruence.
Qed.


Lemma adi_row_unknown (pop : gmap Z entry) adi line zc :
  adi_code line = Some zc -> pop !! zc = None -> adi_row pop adi line = Ok adi.
Proof.
  unfold adi_code, adi_row. intros Hc Hp.
  destruct (split "," (remove_char QUOTE line)) as [|s0 ss]; [done|].
  destruct s0 as [|ch r]; [done|].
  change (take 5 (ch :: r)) with (ch :: take 4 r) in Hc.
  cbn. destruct (isdigit ch); [|done]. cbn.
  apply to_option_Some in Hc. rewrite Hc. cbn. by rewrite Hp.
Qed.

(** C8.  A vaccination row whose code is not a code of the case file
    makes the run fail, whatever else the files hold; when the case file
    and the vaccination rows before it are processed without error the
    failure is the KeyError of [pop[zc]], which the handler for
    ValueError does not catch.  An ADI line whose parent code is unknown
    leaves the tallies as they are and the loop goes on. *)
Theorem unknown_code_fatal_in_vacc_skipped_in_adi :
  (forall (c v a row : str) (zc : Z),
      row ∈ file_lines v -> line_code row = Some zc ->
      zc ∉ case_codes (file_lines c) ->
      exists e, process_chicago c v a = Err e) /\
  (forall (c v a : str) (pre post : list str) (row : str) (zc : Z)
          (pop pop' : gmap Z entry),
      file_lines v = pre ++ row :: post ->
      ingest_cases (file_lines c) = Ok pop ->
      for_each vacc_row pop pre = Ok pop' ->
      line_code row = Some zc ->
      zc ∉ case_codes (file_lines c) ->
      process_chicago c v a = Err KeyError) /\
  (forall (pop : gmap Z entry) (adi : gmap Z (Z * Z)) (line : str) (zc : Z),
      adi_code line = Some zc -> pop !! zc = None ->
      adi_row pop adi line = Ok adi).
Proof.
  split; [|split].
  - intros c v a row zc Hrow Hc Hn.
    destruct (process_chicago c v a) as [r|e] eqn:H; [|eauto]. exfalso.
    unfold process_chicago in H.
    apply bind_Ok in H as (pop1 & H1 & H).
    apply bind_Ok in H as (pop2 & H2 & _).
    pose proof (vacc_rows_known _ _ _ H2) as Hk.
    rewrite Forall_forall in Hk. specialize (Hk row Hrow).
    destruct Hk as (zc' & Hc' & Hs).
    { unfold line_code in Hc. destruct (is_data_line row); [done|discriminate]. }
    rewrite Hc in Hc'. injection Hc' as <-.
    apply Hn. by apply (ingest_cases_inv _ _ H1 zc).
  - intros c v a pre post row zc pop pop' Hv H1 Hpre Hc Hn.
    unfold process_chicago. rewrite H1. cbn.
    unfold ingest_vacc. rewrite Hv, for_each_app, Hpre. cbn.
    rewrite (vacc_row_data _ _ _ Hc). unfold getitem.
    rewrite (ingest_vacc_gen _ _ _ Hpre zc).
    destruct (pop !! zc) eqn:Hp; [|done].
    exfalso. apply Hn. apply (ingest_cases_inv _ _ H1 zc). eauto.
  - apply adi_row_unknown.
Qed.

(** C9.  In every run that writes its output, the population file is the
    header line followed by the data rows; each data row is seven fields,
    free of tabs and newlines, each followed by a tab, then a newline.
    The facility file is its header line and nothing else. *)
Theorem output_format (c v a out fac : str) :
  process_chicago c v a = Ok (out, fac) ->
  let pop_header :=
    txt "id" ++ TAB :: txt "name" ++ TAB :: txt "lat" ++ TAB :: txt "lon"
      ++ TAB :: txt "pop" ++ TAB :: txt "vacc" ++ TAB :: txt "adi"
      ++ [TAB; NL] in
  let fac_header :=
    txt "id" ++ TAB :: txt "name" ++ TAB :: txt "lat" ++ TAB :: txt "lon"
      ++ TAB :: txt "cap" ++ [TAB; NL] in
  fac = fac_header /\
  exists rows : list str,
    out = pop_header ++ concat rows /\
    lines_keepends out = pop_header :: rows /\
    Forall (fun row =>
              exists fields : list str,
                length fields = 7%nat /\
                Forall (fun f => (TAB ∉ f) /\ (NL ∉ f)) fields /\
                row = concat (map (fun f => f ++ [TAB]) fields) ++ [NL])
           rows.
Proof.
  intros H pop_header fac_header.
  apply run_inv in H as (pop & _ & _ & -> & ->).
  split; [reflexivity|].
  set (E := fun zc => default new_entry (pop !! zc)).
  exists (imap (fun j zc => pop_line j zc (E zc)) (sorted_keys pop)).
  change pop_header with POP_HEADER.
  split; [done|]. split.
  - rewrite POP_HEADER_line. f_equal. apply (lines_concat_pop_lines E _ 0).
  - apply Forall_forall. intros row Hrow.
    apply list_elem_of_lookup_1 in Hrow as [j Hj].
    apply list_lookup_imap_Some in Hj as (zc & _ & ->).
    eexists. split; [|split; [|apply pop_line_eq]].
    + done.
    + eapply Forall_impl; [apply row_fields_repr|]. cbn.
      intros f Hf. split; [by apply repr_no_tab|by apply repr_no_nl].
Qed.

(** ** The coordinate extractor *)


Lemma span_digits_spec s d t :
  span_digits s = (d, t) -> s = d ++ t /\ Forall (fun c => isdigit c = true) d.
Proof.
  revert d t. induction s as [|c r IH]; intros d t; cbn.
  - intros [= <- <-]. done.
  - destruct (isdigit c) eqn:Hc.
    + destruct (span_digits r) as [d' t'] eqn:E. intros [= <- <-].
      destruct (IH _ _ eq_refl) as [-> Hd]. split; [done|]. by constructor.
    + intros [= <- <-]. done.
Qed.

Lemma isdigit_num_char c : isdigit c = true -> num_char c = true.
Proof. unfold num_char. intros ->. by rewrite orb_true_r. Qed.

Lemma py_float_token s x :
  py_float s = Ok x -> s ≠ [] /\ Forall (fun c => num_char c = true) s.
Proof.
  unfold py_float. intros H.
  assert (forall body, 
    (let '(ip, rest) := span_digits body in
     let '(fp, rest') :=
       match rest with
       | c :: r => if ascii_eqb c "." then span_digits r else ([], rest)
       | [] => ([], [])
       end in
     match rest', ip ++ fp with
     | [], _ :: _ => true
     | _, _ => false
     end) = true -> body ≠ [] /\ Forall (fun c => num_char c = true) body) as Hbody.
  { intros body. destruct (span_digits body) as [ip rest] eqn:E1.
    apply span_digits_spec in E1 as [-> Hip].
    assert (Forall (fun c => num_char c = true) ip) as Hip'
      by (eapply Forall_impl; [exact Hip|apply isdigit_num_char]).
    destruct rest as [|c r].
    - rewrite app_nil_r. destruct ip; [done|]. done.
    - destruct (ascii_eqb c ".") eqn:Ec.
      + apply Ascii.eqb_eq in Ec as ->.
        destruct (span_digits r) as [fp rest'] eqn:E2.
        apply span_digits_spec in E2 as [-> Hfp].
        destruct rest'; [|done]. intros _. split; [by destruct ip|].
        rewrite app_nil_r. apply Forall_app. split; [done|].
        constructor; [done|].
        eapply Forall_impl; [exact Hfp|apply isdigit_num_char].
      + done. }
  destruct s as [|c r]; [done|]. split; [done|].
  destruct (ascii_eqb c "-") eqn:Ec.
  - apply Ascii.eqb_eq in Ec as ->. constructor; [done|].
    apply Hbody.
    destruct (span_digits r) as [ip rest].
    destruct (match rest with [] => _ | _ => _ end) as [fp rest'].
    destruct rest'; [|done]. by destruct (ip ++ fp).
  - apply Hbody.
    destruct (span_digits (c :: r)) as [ip rest].
    destruct (match rest with [] => _ | _ => _ end) as [fp rest'].
    destruct rest'; [|done]. by destruct (ip ++ fp).
Qed.

Lemma findall_num_skip c r : num_char c = false -> findall_num (c :: r) = findall_num r.
Proof. cbn. by intros ->. Qed.

Lemma findall_num_run (t r : str) :
  t ≠ [] -> Forall (fun c => num_char c = true) t ->
  match r with c :: _ => num_char c = false | [] => True end ->
  findall_num (t ++ r) = t :: findall_num r.
Proof.
  intros Hne Ht Hr. induction t as [|c t IH]; [done|].
  apply Forall_cons in Ht as [Hc Ht].
  destruct t as [|d t].
  - cbn. rewrite Hc. destruct r as [|e r]; [done|]. by rewrite Hr.
  - specialize (IH ltac:(done) Ht).
    change ((c :: d :: t) ++ r) with (c :: (d :: t) ++ r).
    cbn [findall_num]. rewrite Hc. cbn [app].
    apply Forall_cons in Ht as [Hd _]. rewrite Hd.
    change (d :: t ++ r) with ((d :: t) ++ r). by rewrite IH.
Qed.

(** C1.  For a geometry text "POINT (LON LAT)" whose LON and LAT are
    numbers that [float] reads (an optional minus sign, digits, an
    optional decimal point), the tokens found are LON and LAT in that
    order, and the result is the pair (float of LAT, float of LON). *)
Theorem point_to_coords_well_formed (lon lat : str) (x y : float) :
  py_float lon = Ok x ->
  py_float lat = Ok y ->
  let point := txt "POINT (" ++ lon ++ txt " " ++ lat ++ txt ")" in
  findall_num point = [lon; lat] /\
  point_to_coords point = Ok (y, x).
Proof.
  intros Hx Hy point.
  destruct (py_float_token _ _ Hx) as [Hn1 Hc1].
  destruct (py_float_token _ _ Hy) as [Hn2 Hc2].
  assert (findall_num point = [lon; lat]) as Hf.
  { unfold point. cbn [txt list_ascii_of_string app].
    do 7 (rewrite findall_num_skip by done).
    rewrite findall_num_run by done.
    rewrite findall_num_skip by done.
    rewrite findall_num_run by done.
    done. }
  split; [done|].
  unfold point_to_coords. rewrite Hf. cbn. rewrite Hy. cbn. by rewrite Hx.
Qed.

(** The example of the claim: "POINT (-87.65 41.85)" gives the floats
    5889863887670477 * 2^-47 and -6167820427172250 * 2^-46, which print
    as 41.85 and -87.65. *)
Lemma point_to_coords_example :
  (py_float (txt "-87.65") = Ok (S754_finite true 6167820427172250 (-46)) /\
   py_float (txt "41.85") = Ok (S754_finite false 5889863887670477 (-47))) /\
  (findall_num (txt "POINT (-87.65 41.85)") = [txt "-87.65"; txt "41.85"] /\
   point_to_coords (txt "POINT (-87.65 41.85)")
   = Ok (S754_finite false 5889863887670477 (-47),
         S754_finite true 6167820427172250 (-46))) /\
  float_repr (S754_finite false 5889863887670477 (-47)) = txt "41.85" /\
  float_repr (S754_finite true 6167820427172250 (-46)) = txt "-87.65".
Proof.
  split; [split; vm_compute; reflexivity|].
  split; [|split; vm_compute; reflexivity].
  apply (point_to_coords_well_formed
           (txt "-87.65") (txt "41.85")
           (S754_finite true 6167820427172250 (-46))
           (S754_finite false 5889863887670477 (-47)));
    vm_compute; reflexivity.
Defined.

(** ** The end-to-end scenario *)


Ltac not_in_text :=
  let H := fresh in
  intros H; repeat (apply elem_of_cons in H as [H|H]; [discriminate H|]);
  by apply elem_of_nil in H.

Lemma universal_newlines_id (s : str) : CR ∉ s -> universal_newlines s = s.
Proof.
  induction s as [|c r IH]; intros Hn; cbn; [done|].
  apply not_elem_of_cons in Hn as [Hc Hr].
  assert (ascii_eqb c CR = false) as -> by (apply ascii_eqb_neq; congruence).
  by rewrite IH.
Qed.

Lemma lines_keepends_last (b : str) :
  b ≠ [] -> NL ∉ b -> lines_keepends b = [b].
Proof.
  induction b as [|c b IH]; intros Hne Hn; [done|].
  apply not_elem_of_cons in Hn as [Hc Hb]. cbn.
  assert (ascii_eqb c NL = false) as -> by (apply ascii_eqb_neq; congruence).
  destruct b as [|d b]; [done|]. by rewrite IH.
Qed.

Lemma not_elem_of_joined (c sep : ascii) (fs : list str) :
  c ≠ sep -> Forall (fun f => c ∉ f) fs ->
  c ∉ concat (map (fun f => f ++ [sep]) fs).
Proof.
  intros Hs. induction 1 as [|f fs Hf _ IH]; cbn; [apply not_elem_of_nil|].
  rewrite !not_elem_of_app. split; [split|done]; [done|].
  apply not_elem_of_cons. split; [done|apply not_elem_of_nil].
Qed.

Lemma split_joined_app sep (fs : list str) (r : str) :
  Forall (fun f => sep ∉ f) fs ->
  split sep (concat (map (fun f => f ++ [sep]) fs) ++ r) = fs ++ split sep r.
Proof.
  induction 1 as [|f fs Hf _ IH]; cbn; [done|].
  rewrite <- !app_assoc. cbn. rewrite split_app_sep by done. by rewrite IH.
Qed.

Lemma case_row_skip pop line :
  line ≠ [] -> is_data_line line = false -> case_row pop line = Ok pop.
Proof.
  destruct line as [|c r]; [done|]. cbn. intros _ ->. done.
Qed.

Lemma case_row_data pop line zc lat lon n :
  line_code line = Some zc -> line_coords line = Some (lat, lon) ->
  line_int 18 line = Some n ->
  case_row pop line = Ok (case_update pop zc lat lon n).
Proof.
  intros (c & s0 & Hc & Hd & Hs & Hz)%line_code_Some Hco Hn.
  unfold line_coords in Hco. apply to_option_Some in Hco.
  apply bind_Ok in Hco as (g & Hg & Hpt).
  unfold line_int in Hn. apply to_option_Some in Hn.
  apply bind_Ok in Hn as (s18 & Hs18 & Hn).
  unfold case_row. rewrite Hc. cbn. rewrite Hd. cbn. rewrite Hs. cbn.
  rewrite Hz. cbn. rewrite Hg. cbn. rewrite Hpt. cbn.
  unfold case_update, getitem.
  destruct (pop !! zc) as [e0|] eqn:Hl; cbn.
  - rewrite Hl. cbn. rewrite lookup_insert_eq. cbn. rewrite Hs18. cbn.
    rewrite Hn. cbn. rewrite insert_insert_eq. reflexivity.
  - repeat (rewrite lookup_insert_eq; cbn). rewrite Hs18. cbn. rewrite Hn. cbn.
    rewrite !insert_insert_eq. reflexivity.
Qed.

Lemma adi_rows_inert (pop : gmap Z entry) (adi : gmap Z (Z * Z)) zc lines :
  (forall k, is_Some (pop !! k) -> k = zc) -> is_Some (adi !! zc) ->
  Forall (adi_line_inert zc) lines ->
  for_each (adi_row pop) adi lines = Ok adi.
Proof.
  intros Hpop [t Ht]. induction 1 as [|l ls Hl _ IH]; [done|].
  cbn. assert (adi_row pop adi l = Ok adi) as ->; [|exact IH].
  destruct Hl as (c & s0 & rest & Hs & Hcase). unfold adi_row.
  rewrite Hs. cbn.
  destruct Hcase as [Hd|(zc' & Hz & Hcase)]; [by rewrite Hd|].
  destruct (isdigit c); [|done]. cbn.
  change (c :: take 4 s0) with (take 5 (c :: s0)). rewrite Hz. cbn.
  destruct (pop !! zc') eqn:Hp; [|done].
  assert (zc' = zc) as -> by eauto.
  destruct Hcase as [?|(s4 & Hs4 & Hv)]; [done|].
  unfold getitem, subscript. rewrite Ht. cbn. rewrite Hs in Hs4. cbn in Hs4.
  rewrite Hs4. cbn. by rewrite Hv.
Qed.
Lemma lines_keepends_single (b eol : str) :
  b ≠ [] -> NL ∉ b -> eol = [] \/ eol = [NL] ->
  lines_keepends (b ++ eol) = [b ++ eol].
Proof.
  intros Hne Hn [->| ->].
  - rewrite app_nil_r. by apply lines_keepends_last.
  - by rewrite lines_keepends_line.
Qed.

Lemma split_sep_cons sep (r : str) : split sep (sep :: r) = [] :: split sep r.
Proof. apply (split_app_sep sep [] r), not_elem_of_nil. Qed.

Lemma scenario_case_columns mids eol :
  Forall (fun f => ","%char ∉ f) mids -> eol = [] \/ eol = [NL] ->
  split "," (scenario_case_row mids eol)
  = txt "60601" :: mids ++ [txt "18"; txt "POINT (-87.62 41.88)" ++ eol].
Proof.
  intros Hm He. unfold scenario_case_row.
  change (txt "60601,") with (txt "60601" ++ ["," : ascii]).
  rewrite <- app_assoc. cbn [app].
  rewrite split_app_sep by not_in_text. f_equal.
  rewrite split_joined_app by done. f_equal.
  change (txt "18,POINT (-87.62 41.88)")
    with (txt "18" ++ ","%char :: txt "POINT (-87.62 41.88)").
  rewrite <- app_assoc. cbn [app].
  rewrite split_app_sep by not_in_text. f_equal.
  apply split_no_sep. destruct He as [->| ->]; not_in_text.
Qed.

Lemma scenario_case_row_parse mids eol :
  length mids = 17%nat -> Forall (fun f => ","%char ∉ f) mids ->
  eol = [] \/ eol = [NL] ->
  let row := scenario_case_row mids eol in
  line_code row = Some 60601 /\
  line_coords row = Some (lat_41_88, lon_87_62) /\
  line_int 18 row = Some 18.
Proof.
  intros Hlen Hm He row. pose proof (scenario_case_columns mids eol Hm He) as Hs.
  fold row in Hs. split; [|split].
  - unfold line_code. rewrite Hs. done.
  - unfold line_coords, subscript_last. rewrite Hs.
    change (txt "60601" :: mids ++ [txt "18"; txt "POINT (-87.62 41.88)" ++ eol])
      with ((txt "60601" :: mids) ++ [txt "18"; txt "POINT (-87.62 41.88)" ++ eol]).
    rewrite last_app. cbn [last].
    destruct He as [->| ->]; vm_compute; reflexivity.
  - unfold line_int, subscript. rewrite Hs.
    change (txt "60601" :: mids ++ [txt "18"; txt "POINT (-87.62 41.88)" ++ eol])
      with ((txt "60601" :: mids) ++ [txt "18"; txt "POINT (-87.62 41.88)" ++ eol]).
    rewrite lookup_app_r by (cbn; lia).
    cbn [length]. rewrite Hlen. done.
Qed.

Lemma scenario_vacc_columns vmid eol :
  ","%char ∉ vmid -> eol = [] \/ eol = [NL] ->
  split "," (scenario_vacc_row vmid eol)
  = [txt "60601"; vmid; []; []; txt "150" ++ eol].
Proof.
  intros Hv He. unfold scenario_vacc_row.
  change (txt "60601,") with (txt "60601" ++ ["," : ascii]).
  rewrite <- app_assoc. cbn [app].
  rewrite split_app_sep by not_in_text. f_equal.
  change (txt ",,,150") with (","%char :: ","%char :: ","%char :: txt "150").
  cbn [app].
  rewrite split_app_sep by done. f_equal.
  rewrite !split_sep_cons. do 2 f_equal.
  apply split_no_sep. destruct He as [->| ->]; not_in_text.
Qed.

Lemma bind_Ok_l {A B} (a : A) (k : A -> result B) : (Ok a ≫= k) = k a.
Proof. reflexivity. Qed.

Lemma scenario_case_lines hdr mids eol :
  NL ∉ hdr -> CR ∉ hdr ->
  Forall (fun f => (NL ∉ f) /\ (CR ∉ f)) mids ->
  eol = [] \/ eol = [NL] ->
  file_lines (hdr ++ [NL] ++ scenario_case_row mids eol)
  = [hdr ++ [NL]; scenario_case_row mids eol].
Proof.
  intros Hn Hc Hm He. unfold file_lines.
  assert (Forall (fun f => NL ∉ f) mids) as Hm1
      by (eapply Forall_impl; [exact Hm|]; by intros f []).
  assert (Forall (fun f => CR ∉ f) mids) as Hm2
      by (eapply Forall_impl; [exact Hm|]; by intros f []).
  rewrite universal_newlines_id.
  2:{ unfold scenario_case_row. rewrite !not_elem_of_app.
      split; [done|]. split; [not_in_text|]. split; [not_in_text|].
      split; [by apply not_elem_of_joined|]. split; [not_in_text|].
      destruct He as [->| ->]; not_in_text. }
  cbn [app]. rewrite lines_keepends_line by done. f_equal.
  unfold scenario_case_row. rewrite !app_assoc.
  apply lines_keepends_single; [|  |done].
  - done.
  - rewrite <- !app_assoc. rewrite !not_elem_of_app.
    split; [not_in_text|]. split; [by apply not_elem_of_joined|]. not_in_text.
Qed.

Lemma scenario_vacc_lines vmid eol :
  NL ∉ vmid -> CR ∉ vmid -> eol = [] \/ eol = [NL] ->
  file_lines (scenario_vacc_row vmid eol) = [scenario_vacc_row vmid eol].
Proof.
  intros Hn Hc He. unfold file_lines.
  rewrite universal_newlines_id.
  2:{ unfold scenario_vacc_row. rewrite !not_elem_of_app.
      split; [not_in_text|]. split; [done|]. split; [not_in_text|].
      destruct He as [->| ->]; not_in_text. }
  unfold scenario_vacc_row. rewrite !app_assoc.
  apply lines_keepends_single; [done| |done].
  rewrite <- !app_assoc. rewrite !not_elem_of_app.
  split; [not_in_text|]. split; [done|]. not_in_text.
Qed.

(** C2.  A case file made of one header line (any line that does not
    start with a digit) and the data row 60601 with 18 in column 18 and
    "POINT (-87.62 41.88)" as last column, whatever columns 1 to 17 hold;
    a vaccination file made of the row 60601 with 150 in column 4; an ADI
    file none of whose lines counts for 60601: the population file is the
    header and the one row 0, 60601, 41.88, -87.62, 18, 150, 0, and the
    facility file is its header. *)
Theorem end_to_end_single_row (hdr : str) (mids : list str)
        (vmid eol1 eol2 a : str) :
  is_data_line (hdr ++ [NL]) = false ->
  NL ∉ hdr -> CR ∉ hdr ->
  length mids = 17%nat ->
  Forall (fun f => (","%char ∉ f) /\ (NL ∉ f) /\ (CR ∉ f)) mids ->
  ","%char ∉ vmid -> NL ∉ vmid -> CR ∉ vmid ->
  eol1 = [] \/ eol1 = [NL] ->
  eol2 = [] \/ eol2 = [NL] ->
  Forall (adi_line_inert 60601) (file_lines a) ->
  process_chicago (hdr ++ [NL] ++ scenario_case_row mids eol1)
                  (scenario_vacc_row vmid eol2) a
  = Ok (scenario_pop_out, FAC_HEADER).
Proof.
  intros Hhdr Hn Hc Hlen Hm Hv1 Hv2 Hv3 He1 He2 Ha.
  assert (Forall (fun f => ","%char ∉ f) mids) as Hm0
      by (eapply Forall_impl; [exact Hm|]; by intros f [? _]).
  assert (Forall (fun f => (NL ∉ f) /\ (CR ∉ f)) mids) as Hm1
      by (eapply Forall_impl; [exact Hm|]; by intros f [_ ?]).
  destruct (scenario_case_row_parse mids eol1 Hlen Hm0 He1) as (Hcode & Hco & Hcnt).
  set (pop1 := case_update ∅ 60601 lat_41_88 lon_87_62 18).
  assert (ingest_cases (file_lines (hdr ++ [NL] ++ scenario_case_row mids eol1))
          = Ok pop1) as H1.
  { rewrite scenario_case_lines by done. unfold ingest_cases. cbn [for_each].
    rewrite case_row_skip; [|by destruct hdr|done]. rewrite bind_Ok_l.
    rewrite (case_row_data _ _ _ _ _ _ Hcode Hco Hcnt). done. }
  set (pop2 := <[60601 := set_vacc (Entry (PFloat lat_41_88) (PFloat lon_87_62) 18 0 (PInt 0)) 150]> pop1).
  assert (ingest_vacc pop1 (file_lines (scenario_vacc_row vmid eol2)) = Ok pop2) as H2.
  { rewrite scenario_vacc_lines by done. unfold ingest_vacc. cbn [for_each].
    assert (line_code (scenario_vacc_row vmid eol2) = Some 60601) as Hvc.
    { unfold line_code. rewrite scenario_vacc_columns by done. done. }
    rewrite (vacc_row_data _ _ _ Hvc).
    rewrite scenario_vacc_columns by done.
    unfold getitem, pop1, case_update. rewrite lookup_insert_eq, bind_Ok_l.
    change (subscript [txt "60601"; vmid; []; []; txt "150" ++ eol2] 4)
      with (Ok (A:=str) (txt "150" ++ eol2)).
    rewrite bind_Ok_l.
    assert (py_int (txt "150" ++ eol2) = Ok 150) as ->
        by (destruct He2 as [->| ->]; reflexivity).
    reflexivity. }
  assert (ingest_adi pop2 (file_lines a) = Ok pop2) as H3.
  { unfold ingest_adi.
    rewrite (adi_rows_inert pop2 _ 60601 (file_lines a)).
    - vm_compute. reflexivity.
    - intros k [e Hk]. unfold pop2, pop1, case_update in Hk.
      destruct (decide (k = 60601)) as [->|Hne]; [done|].
      rewrite !lookup_insert_ne in Hk by done. by rewrite lookup_empty in Hk.
    - rewrite lookup_fmap. unfold pop2. rewrite lookup_insert_eq. cbn. eauto.
    - done. }
  unfold process_chicago. rewrite H1, bind_Ok_l, H2, bind_Ok_l, H3, bind_Ok_l.
  vm_compute. reflexivity.
Qed.


(** ** The theorems at the sample inputs *)

(** The scenario of C2 with concrete fillers. *)
Lemma end_to_end_single_row_sample :
  process_chicago
    (scenario_hdr ++ [NL] ++ scenario_case_row scenario_mids [NL])
    (scenario_vacc_row (txt "...") []) scenario_adi
  = Ok (scenario_pop_out, FAC_HEADER).
Proof.
  apply (end_to_end_single_row scenario_hdr scenario_mids (txt "...")
           [NL] [] scenario_adi).
  - reflexivity.
  - vm_compute. not_in_text.
  - vm_compute. not_in_text.
  - reflexivity.
  - vm_compute. repeat constructor; not_in_text.
  - vm_compute. not_in_text.
  - vm_compute. not_in_text.
  - vm_compute. not_in_text.
  - right. reflexivity.
  - left. reflexivity.
  - vm_compute. repeat constructor.
    + eexists _, _, _. split; [reflexivity|]. left. reflexivity.
    + eexists _, _, _. split; [reflexivity|]. right.
      exists 99999. split; [reflexivity|]. left. discriminate.
Defined.

Lemma population_codes_exact_sample :
  process_chicago sample_case sample_vacc sample_adi
  = Ok (sample_pop_out, FAC_HEADER) /\
  exists codes : list Z,
    int_column 1 sample_pop_out = map Some codes /\
    NoDup codes /\
    (forall zc, zc ∈ codes <-> zc ∈ case_codes (file_lines sample_case)) /\
    Forall (fun l => is_data_line l = true -> is_Some (line_code l))
           (file_lines sample_case).
Proof.
  split; [vm_compute; reflexivity|].
  apply (population_codes_exact sample_case sample_vacc sample_adi
           sample_pop_out FAC_HEADER).
  vm_compute. reflexivity.
Defined.

Lemma population_rows_sorted_sample :
  process_chicago sample_case sample_vacc sample_adi
  = Ok (sample_pop_out, FAC_HEADER) /\
  exists codes : list Z,
    int_column 1 sample_pop_out = map Some codes /\
    StronglySorted Z.lt codes /\
    int_column 0 sample_pop_out
    = map (fun i => Some (Z.of_nat i)) (seq 0 (length codes)).
Proof.
  split; [vm_compute; reflexivity|].
  apply (population_rows_sorted sample_case sample_vacc sample_adi
           sample_pop_out FAC_HEADER).
  vm_compute. reflexivity.
Defined.


Lemma vacc_field_sum_sample :
  (process_chicago sample_case sample_vacc sample_adi
   = Ok (sample_pop_out, FAC_HEADER) /\
   60601 ∈ case_codes (file_lines sample_case)) /\
  out_field sample_pop_out 60601 5
  = Some (str_of_Z (sum_list (vacc_values 60601 (file_lines sample_vacc)))).
Proof.
  split; [split; [vm_compute; reflexivity|vm_compute; apply list_elem_of_here]|].
  apply (vacc_field_sum sample_case sample_vacc sample_adi
           sample_pop_out FAC_HEADER 60601).
  - vm_compute. reflexivity.
  - vm_compute. apply list_elem_of_here.
Defined.

Lemma adi_field_mean_sample :
  (process_chicago sample_case sample_vacc sample_adi
   = Ok (sample_pop_out, FAC_HEADER) /\
   60601 ∈ case_codes (file_lines sample_case)) /\
  match adi_values 60601 (file_lines sample_adi) with
  | [] => out_field sample_pop_out 60601 6 = Some (str_of_Z 0)
  | vals =>
      exists x,
        py_truediv (sum_list vals) (Z.of_nat (length vals)) = Ok x /\
        out_field sample_pop_out 60601 6 = Some (float_repr x)
  end.
Proof.
  split; [split; [vm_compute; reflexivity|vm_compute; apply list_elem_of_here]|].
  apply (adi_field_mean sample_case sample_vacc sample_adi
           sample_pop_out FAC_HEADER 60601).
  - vm_compute. reflexivity.
  - vm_compute. apply list_elem_of_here.
Defined.

Lemma unknown_code_sample :
  (file_lines unknown_vacc
   = [txt "60601,x,,,150" ++ [NL]] ++ (txt "99999,x,,,7" ++ [NL]) :: [] /\
   line_code (txt "99999,x,,,7" ++ [NL]) = Some 99999 /\
   99999 ∉ case_codes (file_lines sample_case)) /\
  process_chicago sample_case unknown_vacc sample_adi = Err KeyError.
Proof.
  assert (99999 ∉ case_codes (file_lines sample_case)) as Hn.
  { vm_compute. intros H.
    repeat (apply elem_of_cons in H as [H|H]; [discriminate H|]).
    by apply elem_of_nil in H. }
  split; [split; [reflexivity|split; [reflexivity|exact Hn]]|].
  destruct unknown_code_fatal_in_vacc_skipped_in_adi as (_ & Hkey & _).
  eapply (Hkey sample_case unknown_vacc sample_adi
            [txt "60601,x,,,150" ++ [NL]] [] (txt "99999,x,,,7" ++ [NL]) 99999).
  - reflexivity.
  - vm_compute. reflexivity.
  - vm_compute. reflexivity.
  - reflexivity.
  - exact Hn.
Defined.

Lemma output_format_sample :
  process_chicago sample_case sample_vacc sample_adi
  = Ok (sample_pop_out, FAC_HEADER) /\
  exists rows : list str,
    lines_keepends sample_pop_out = POP_HEADER :: rows /\
    length rows = 2%nat.
Proof.
  split; [vm_compute; reflexivity|].
  destruct (output_format sample_case sample_vacc sample_adi
              sample_pop_out FAC_HEADER) as (_ & rows & _ & Hl & _).
  { vm_compute. reflexivity. }
  exists rows. split; [exact Hl|].
  vm_compute in Hl. injection Hl as <-. reflexivity.
Defined.

Lemma coords_from_last_row_sample :
  (process_chicago two_rows [] [] 
   = Ok (POP_HEADER ++ txt "0" ++ [TAB] ++ txt "60601" ++ [TAB]
           ++ txt "41.5" ++ [TAB] ++ txt "-87.5" ++ [TAB]
           ++ txt "18" ++ [TAB] ++ txt "0" ++ [TAB] ++ txt "0" ++ [TAB] ++ [NL],
         FAC_HEADER) /\
   60601 ∈ case_codes (file_lines two_rows)) /\
  exists lat lon,
    last (case_coords 60601 (file_lines two_rows)) = Some (lat, lon) /\
    float_repr lat = txt "41.5" /\ float_repr lon = txt "-87.5".
Proof.
  split; [split; [vm_compute; reflexivity|vm_compute; apply list_elem_of_here]|].
  destruct coords_from_last_row as [Hlast _].
  destruct (Hlast two_rows [] []
              (POP_HEADER ++ txt "0" ++ [TAB] ++ txt "60601" ++ [TAB]
                 ++ txt "41.5" ++ [TAB] ++ txt "-87.5" ++ [TAB]
                 ++ txt "18" ++ [TAB] ++ txt "0" ++ [TAB] ++ txt "0" ++ [TAB] ++ [NL])
              FAC_HEADER 60601)
    as (_ & lat & lon & Hl & Hlat & Hlon).
  { vm_compute. reflexivity. }
  { vm_compute. apply list_elem_of_here. }
  exists lat, lon. split; [exact Hl|].
  vm_compute in Hl. injection Hl as <- <-. split; vm_compute; reflexivity.
Defined.

(* ===================================================================== *)
(** * Further properties *)
(* ===================================================================== *)

(** ** The coordinate extractor: outcomes *)

Lemma findall_num_skip_all (pre r : str) :
  Forall (fun c => num_char c = false) pre ->
  findall_num (pre ++ r) = findall_num r.
Proof.
  induction 1 as [|c pre Hc _ IH]; [done|].
  cbn [app]. by rewrite findall_num_skip.
Qed.

Lemma py_float_err s e : py_float s = Err e -> e = ValueError.
Proof.
  unfold py_float.
  destruct (match s with [] => _ | _ => _ end) as [neg body].
  destruct (span_digits body) as [ip rest].
  destruct (match rest with [] => _ | _ => _ end) as [fp rest'].
  destruct rest'; [|congruence]. destruct (ip ++ fp); congruence.
Qed.

(** X1.  What [point_to_coords] returns, case by case: a pair exactly
    when the text has two tokens at least and [float] reads the first
    two; IndexError exactly when it has fewer than two tokens, whatever
    they are; ValueError when one of the first two is not a number; and
    nothing else.  A text without a digit, a minus sign or a dot raises
    IndexError. *)
Theorem point_to_coords_outcomes (p : str) :
  match point_to_coords p with
  | Ok (y, x) =>
      exists t0 t1 rest, findall_num p = t0 :: t1 :: rest /\
                         py_float t1 = Ok y /\ py_float t0 = Ok x
  | Err IndexError => (length (findall_num p) < 2)%nat
  | Err ValueError =>
      exists t0 t1 rest, findall_num p = t0 :: t1 :: rest /\
                         (py_float t1 = Err ValueError \/
                          py_float t0 = Err ValueError)
  | Err _ => False
  end /\
  (Forall (fun c => num_char c = false) p ->
   point_to_coords p = Err IndexError).
Proof.
  split.
  - unfold point_to_coords.
    destruct (findall_num p) as [|t0 [|t1 rest]]; cbn; [lia|lia|].
    destruct (py_float t1) as [y|e1] eqn:E1; cbn.
    + destruct (py_float t0) as [x|e0] eqn:E0; cbn.
      * exists t0, t1, rest. done.
      * pose proof (py_float_err _ _ E0) as ->.
        exists t0, t1, rest. split; [done|]. by right.
    + pose proof (py_float_err _ _ E1) as ->.
      exists t0, t1, rest. split; [done|]. by left.
  - intros H. unfold point_to_coords.
    rewrite <- (app_nil_r p), findall_num_skip_all by done. done.
Qed.

(** X2.  Only the first two tokens count, and nothing else of the text
    is looked at: whatever stands before the first token, between the
    two and after the second (the word POINT, the parentheses, a newline,
    further numbers), the result is (float of the second token, float of
    the first). *)
Theorem point_to_coords_first_two_tokens
        (pre t0 sep t1 post : str) (x y : float) :
  Forall (fun c => num_char c = false) pre ->
  sep ≠ [] -> Forall (fun c => num_char c = false) sep ->
  match post with c :: _ => num_char c = false | [] => True end ->
  py_float t0 = Ok x -> py_float t1 = Ok y ->
  point_to_coords (pre ++ t0 ++ sep ++ t1 ++ post) = Ok (y, x).
Proof.
  intros Hpre Hne Hsep Hpost Hx Hy.
  destruct (py_float_token _ _ Hx) as [Hn0 Hc0].
  destruct (py_float_token _ _ Hy) as [Hn1 Hc1].
  unfold point_to_coords.
  rewrite findall_num_skip_all by done.
  rewrite findall_num_run; [|done|done|].
  2:{ destruct sep as [|c sep]; [done|]. by apply Forall_cons in Hsep as [? _]. }
  rewrite findall_num_skip_all by done.
  rewrite findall_num_run by done.
  cbn. rewrite Hy. cbn. by rewrite Hx.
Qed.

(** A longitude in exponent notation is cut at the letter: the latitude
    returned is the exponent and the real latitude is ignored. *)
Lemma point_to_coords_exponent :
  (py_float (txt "1") = Ok (S754_finite false 4503599627370496 (-52)) /\
   py_float (txt "5") = Ok (S754_finite false 5629499534213120 (-50))) /\
  point_to_coords (txt "POINT (1e5 2)")
  = Ok (S754_finite false 5629499534213120 (-50),
        S754_finite false 4503599627370496 (-52)).
Proof.
  split; [split; vm_compute; reflexivity|].
  apply (point_to_coords_first_two_tokens
           (txt "POINT (") (txt "1") (txt "e") (txt "5") (txt " 2)")).
  - vm_compute. repeat constructor.
  - discriminate.
  - vm_compute. repeat constructor.
  - reflexivity.
  - vm_compute. reflexivity.
  - vm_compute. reflexivity.
Defined.

(** ** When the loops succeed *)

Lemma lines_keepends_nonempty (s : str) : Forall (fun l => l ≠ []) (lines_keepends s).
Proof.
  induction s as [|c r IH]; cbn; [constructor|].
  destruct (ascii_eqb c NL); [by constructor|].
  destruct (lines_keepends r) as [|l ls]; [by repeat constructor|].
  destruct r; [by repeat constructor|].
  apply Forall_cons in IH as [_ IH]. by constructor.
Qed.

Lemma file_lines_nonempty (s : str) : Forall (fun l => l ≠ []) (file_lines s).
Proof. apply lines_keepends_nonempty. Qed.

Lemma is_data_line_code l zc : line_code l = Some zc -> is_data_line l = true.
Proof. unfold line_code. by destruct (is_data_line l). Qed.


Lemma vacc_row_skip pop line :
  line ≠ [] -> is_data_line line = false -> vacc_row pop line = Ok pop.
Proof. destruct line as [|c r]; [done|]. cbn. intros _ ->. done. Qed.

Lemma vacc_row_same_keys pop line pop' :
  vacc_row pop line = Ok pop' ->
  forall zc, is_Some (pop' !! zc) <-> is_Some (pop !! zc).
Proof.
  intros H zc. pose proof (ingest_vacc_gen [line] pop pop') as Hk.
  cbn in Hk. rewrite H in Hk. rewrite (Hk eq_refl zc). apply fmap_is_Some.
Qed.

Lemma vacc_stage_total lines : forall pop0,
  Forall (fun l => l ≠ []) lines ->
  Forall (vacc_row_ok (fun zc => is_Some (pop0 !! zc))) lines ->
  exists pop, for_each vacc_row pop0 lines = Ok pop.
Proof.
  induction lines as [|l ls IH]; intros pop0 Hne Hok; [by eexists|].
  apply Forall_cons in Hne as [Hl Hne]. apply Forall_cons in Hok as [Hr Hok].
  cbn.
  assert (exists pop1, vacc_row pop0 l = Ok pop1) as [pop1 H1].
  { destruct (is_data_line l) eqn:Hd.
    - destruct (Hr Hd) as (zc & Hc & [e He] & [s4 Hs4]).
      rewrite (vacc_row_data _ _ _ Hc). unfold getitem, subscript.
      rewrite He, Hs4. cbn.
      destruct (py_int s4) as [n|x] eqn:E; [by eexists|].
      apply py_int_err in E as ->. by eexists.
    - rewrite (vacc_row_skip _ _ Hl Hd). by eexists. }
  rewrite H1. cbn. apply IH; [done|].
  eapply Forall_impl; [exact Hok|]. cbn. intros x Hx Hd.
  destruct (Hx Hd) as (zc & Hc & Hk & Hs). exists zc.
  split; [done|]. split; [|done]. by apply (vacc_row_same_keys _ _ _ H1).
Qed.

Lemma vacc_stage_ok lines pop0 pop :
  for_each vacc_row pop0 lines = Ok pop ->
  Forall (vacc_row_ok (fun zc => is_Some (pop0 !! zc))) lines.
Proof.
  revert pop0. induction lines as [|l ls IH]; intros pop0 H; [constructor|].
  cbn in H. apply bind_Ok in H as (pop1 & H1 & H).
  constructor.
  - intros Hd. apply vacc_row_Ok in H1 as [[Hd' _]|(zc & e & Hc & He & Hs & _)];
      [congruence|]. exists zc. eauto.
  - eapply Forall_impl; [apply (IH _ H)|]. cbn. intros x Hx Hd.
    destruct (Hx Hd) as (zc & Hc & Hk & Hs). exists zc.
    split; [done|]. split; [|done]. by apply (vacc_row_same_keys _ _ _ H1).
Qed.

Lemma vacc_stage_result lines pop0 pop :
  for_each vacc_row pop0 lines = Ok pop -> pop = vacc_result pop0 lines.
Proof.
  intros H. apply map_eq. intros zc. unfold vacc_result.
  rewrite map_lookup_imap, (ingest_vacc_gen _ _ _ H zc).
  by destruct (pop0 !! zc).
Qed.

(** The vaccination loop succeeds exactly on the files all of whose
    lines are fine, and then gives [vacc_result]. *)
Lemma vacc_stage_iff lines pop0 pop :
  Forall (fun l => l ≠ []) lines ->
  for_each vacc_row pop0 lines = Ok pop <->
  Forall (vacc_row_ok (fun zc => is_Some (pop0 !! zc))) lines /\
  pop = vacc_result pop0 lines.
Proof.
  intros Hne. split.
  - intros H. split; [by eapply vacc_stage_ok|by apply vacc_stage_result].
  - intros [Hok ->]. destruct (vacc_stage_total lines pop0 Hne Hok) as [pop' H].
    by rewrite H, (vacc_stage_result _ _ _ H).
Qed.

Lemma adi_row_line_ok pop adi line adi' :
  adi_row pop adi line = Ok adi' ->
  adi_line_ok (fun zc => is_Some (pop !! zc)) line.
Proof.
  unfold adi_row, adi_line_ok. intros H.
  apply bind_Ok in H as (s0 & Hs0 & H).
  apply bind_Ok in H as (c & Hc & H).
  unfold subscript in Hs0.
  destruct (split "," (remove_char QUOTE line)) as [|s0' ss] eqn:Es; [discriminate|].
  cbn in Hs0. injection Hs0 as ->.
  destruct s0 as [|c' s0]; [discriminate|]. cbn in Hc. injection Hc as ->.
  exists c, s0, ss. split; [done|]. intros Hd. rewrite Hd in H. cbn in H.
  apply bind_Ok in H as (zc & Hzc & H). exists zc. split; [done|].
  intros [e He]. rewrite He in H.
  apply bind_Ok in H as (t & Ht & H).
  apply bind_Ok in H as (s4 & Hs4 & H).
  unfold subscript in Hs4.
  destruct (((c :: s0) :: ss) !! 4%nat) eqn:E4; [eauto|discriminate].
Qed.

Lemma tally_stage_ok pop lines : forall adi0 adi,
  for_each (adi_row pop) adi0 lines = Ok adi ->
  Forall (adi_line_ok (fun zc => is_Some (pop !! zc))) lines.
Proof.
  induction lines as [|l ls IH]; intros adi0 adi H; [constructor|].
  cbn in H. apply bind_Ok in H as (adi1 & H1 & H).
  constructor; [by eapply adi_row_line_ok|by eapply IH].
Qed.

Lemma adi_row_total (pop : gmap Z entry) (adi : gmap Z (Z * Z)) line :
  (forall zc, is_Some (pop !! zc) -> is_Some (adi !! zc)) ->
  adi_line_ok (fun zc => is_Some (pop !! zc)) line ->
  exists adi', adi_row pop adi line = Ok adi' /\
               (forall zc, is_Some (pop !! zc) -> is_Some (adi' !! zc)).
Proof.
  intros Hinv (c & s0 & rest & Hs & Hd). unfold adi_row.
  rewrite Hs. cbn.
  destruct (isdigit c); cbn; [|by eexists].
  destruct (Hd eq_refl) as (zc & Hz & Hk).
  change (c :: take 4 s0) with (take 5 (c :: s0)). rewrite Hz. cbn.
  destruct (pop !! zc) as [e|] eqn:Hp; [|by eexists].
  destruct (Hinv zc) as [t Ht]; [by rewrite Hp|].
  destruct (Hk ltac:(eauto)) as [s4 Hs4]. rewrite Hs in Hs4. cbn in Hs4.
  unfold getitem, subscript. rewrite Ht. cbn. rewrite Hs4. cbn.
  destruct (py_int s4) as [n|x] eqn:E.
  - eexists. split; [done|]. intros k Hsome.
    destruct (decide (zc = k)) as [->|Hne].
    + rewrite lookup_insert_eq. eauto.
    + rewrite lookup_insert_ne by done. auto.
  - apply py_int_err in E as ->. by eexists.
Qed.

Lemma tally_stage_total pop lines : forall adi0,
  (forall zc, is_Some (pop !! zc) -> is_Some (adi0 !! zc)) ->
  Forall (adi_line_ok (fun zc => is_Some (pop !! zc))) lines ->
  exists adi, for_each (adi_row pop) adi0 lines = Ok adi.
Proof.
  induction lines as [|l ls IH]; intros adi0 Hinv Hok; [by eexists|].
  apply Forall_cons in Hok as [Hl Hok].
  destruct (adi_row_total pop adi0 l Hinv Hl) as (adi1 & H1 & Hinv1).
  cbn. rewrite H1. cbn. by apply IH.
Qed.

Lemma tally_stage_result (pop : gmap Z entry) lines adi :
  for_each (adi_row pop) ((fun _ => (0, 0)) <$> pop) lines = Ok adi ->
  adi = tally_result pop lines.
Proof.
  intros H. apply map_eq. intros zc. unfold tally_result.
  rewrite map_lookup_imap. destruct (tally_gen _ _ _ _ H zc) as [Hn Hy].
  destruct (pop !! zc) as [e|] eqn:Hp; cbn.
  - rewrite Hy by eauto. rewrite lookup_fmap, Hp. done.
  - rewrite Hn by done. by rewrite lookup_fmap, Hp.
Qed.

(** The ADI loop succeeds exactly on the files all of whose lines are
    fine, and then gives [tally_result]. *)
Lemma tally_stage_iff (pop : gmap Z entry) lines adi :
  for_each (adi_row pop) ((fun _ => (0, 0)) <$> pop) lines = Ok adi <->
  Forall (adi_line_ok (fun zc => is_Some (pop !! zc))) lines /\
  adi = tally_result pop lines.
Proof.
  split.
  - intros H. split; [by eapply tally_stage_ok|by apply tally_stage_result].
  - intros [Hok ->].
    destruct (tally_stage_total pop lines ((fun _ => (0, 0)) <$> pop)) as [adi' H];
      [|done|].
    + intros zc [e He]. rewrite lookup_fmap, He. by eexists.
    + by rewrite H, (tally_stage_result _ _ _ H).
Qed.

Lemma sum_list_perm (l l' : list Z) : l ≡ₚ l' -> sum_list l = sum_list l'.
Proof.
  unfold sum_list. induction 1; cbn; [done|congruence|lia|congruence].
Qed.

Lemma adi_values_perm zc (l l' : list str) :
  l ≡ₚ l' -> adi_values zc l ≡ₚ adi_values zc l'.
Proof. intros H. unfold adi_values. by rewrite H. Qed.

Lemma vacc_result_perm pop (l l' : list str) :
  l ≡ₚ l' -> vacc_result pop l = vacc_result pop l'.
Proof.
  intros H. apply map_eq. intros zc. unfold vacc_result.
  rewrite !map_lookup_imap. destruct (pop !! zc); cbn; [|done].
  do 3 f_equal. apply sum_list_perm. unfold vacc_values. by apply rows_of_perm.
Qed.

Lemma tally_result_perm pop (l l' : list str) :
  l ≡ₚ l' -> tally_result pop l = tally_result pop l'.
Proof.
  intros H. apply map_eq. intros zc. unfold tally_result.
  rewrite !map_lookup_imap. destruct (pop !! zc); cbn; [|done].
  pose proof (adi_values_perm zc _ _ H) as Hp.
  by rewrite (sum_list_perm _ _ Hp), (Permutation_length Hp).
Qed.

Lemma Forall_perm_nonempty (l l' : list str) :
  l ≡ₚ l' -> Forall (fun x => x ≠ []) l -> Forall (fun x => x ≠ []) l'.
Proof. intros H. by rewrite H. Qed.

Lemma ingest_vacc_perm pop (l l' : list str) pop' :
  l ≡ₚ l' -> Forall (fun x => x ≠ []) l ->
  ingest_vacc pop l = Ok pop' -> ingest_vacc pop l' = Ok pop'.
Proof.
  unfold ingest_vacc. intros Hp Hne H.
  apply vacc_stage_iff in H as [Hok ->]; [|done].
  apply vacc_stage_iff; [by eapply Forall_perm_nonempty|].
  split; [by rewrite <- Hp|by apply vacc_result_perm].
Qed.

Lemma ingest_adi_perm pop (l l' : list str) pop' :
  l ≡ₚ l' -> ingest_adi pop l = Ok pop' -> ingest_adi pop l' = Ok pop'.
Proof.
  unfold ingest_adi. intros Hp H.
  apply bind_Ok in H as (adi & Ht & Hm).
  apply tally_stage_iff in Ht as [Hok ->].
  assert (for_each (adi_row pop) ((fun _ => (0, 0)) <$> pop) l'
          = Ok (tally_result pop l)) as ->.
  { apply tally_stage_iff. split; [by rewrite <- Hp|by apply tally_result_perm]. }
  exact Hm.
Qed.

(** X5.  The order of the lines of the vaccination file and of the ADI
    file does not matter: a run that writes its output writes the same
    two files for every reordering of these lines. *)
Theorem vacc_and_adi_order_irrelevant (c v a v' a' : str) (r : str * str) :
  file_lines v' ≡ₚ file_lines v ->
  file_lines a' ≡ₚ file_lines a ->
  process_chicago c v a = Ok r ->
  process_chicago c v' a' = Ok r.
Proof.
  intros Hv Ha H. unfold process_chicago in *.
  apply bind_Ok in H as (pop1 & H1 & H).
  apply bind_Ok in H as (pop2 & H2 & H).
  apply bind_Ok in H as (pop3 & H3 & H).
  rewrite H1. cbn.
  rewrite (ingest_vacc_perm pop1 (file_lines v) (file_lines v') pop2);
    [|done|apply file_lines_nonempty|done].
  cbn. rewrite (ingest_adi_perm pop2 (file_lines a) (file_lines a') pop3); done.
Qed.








(** ** Why a run fails *)
















(** ** What does not matter *)

Lemma adi_row_header pop adi line :
  is_adi_header line = true -> adi_row pop adi line = Ok adi.
Proof.
  unfold is_adi_header, adi_row.
  destruct (split "," (remove_char QUOTE line)) as [|[|c s0] rest]; [done|done|].
  cbn. by intros ->.
Qed.

Lemma for_each_filter {S A} (body : S -> A -> result S) (keep : A -> bool) l :
  forall st,
  Forall (fun a => keep a = false -> forall s, body s a = Ok s) l ->
  for_each body st l = for_each body st (List.filter keep l).
Proof.
  induction l as [|a l IH]; intros st H; [done|].
  apply Forall_cons in H as [Ha H]. cbn.
  destruct (keep a) eqn:Hk; cbn.
  - destruct (body st a); cbn; [by apply IH|done].
  - rewrite (Ha eq_refl st). cbn. by apply IH.
Qed.

Lemma ingest_cases_filter lines :
  Forall (fun l => l ≠ []) lines ->
  ingest_cases lines = ingest_cases (List.filter is_data_line lines).
Proof.
  intros H. apply for_each_filter.
  eapply Forall_impl; [exact H|]. cbn. intros l Hl Hd s. by apply case_row_skip.
Qed.

Lemma ingest_vacc_filter pop lines :
  Forall (fun l => l ≠ []) lines ->
  ingest_vacc pop lines = ingest_vacc pop (List.filter is_data_line lines).
Proof.
  intros H. apply for_each_filter.
  eapply Forall_impl; [exact H|]. cbn. intros l Hl Hd s. by apply vacc_row_skip.
Qed.

Lemma ingest_adi_filter pop lines :
  ingest_adi pop lines
  = ingest_adi pop (List.filter (fun l => negb (is_adi_header l)) lines).
Proof.
  unfold ingest_adi. f_equal. apply for_each_filter.
  apply Forall_forall. intros l _ Hh s. apply adi_row_header.
  by destruct (is_adi_header l).
Qed.

(** X6.  Lines that fail the header test are skipped wherever they stand,
    not only on the first line: two sets of files with the same data
    lines in the same order give the same result, the same error
    included. *)
Theorem comment_lines_ignored (c c' v v' a a' : str) :
  List.filter is_data_line (file_lines c')
  = List.filter is_data_line (file_lines c) ->
  List.filter is_data_line (file_lines v')
  = List.filter is_data_line (file_lines v) ->
  List.filter (fun l => negb (is_adi_header l)) (file_lines a')
  = List.filter (fun l => negb (is_adi_header l)) (file_lines a) ->
  process_chicago c' v' a' = process_chicago c v a.
Proof.
  intros Hc Hv Ha. unfold process_chicago.
  rewrite (ingest_cases_filter (file_lines c')) by apply file_lines_nonempty.
  rewrite (ingest_cases_filter (file_lines c)) by apply file_lines_nonempty.
  rewrite Hc. destruct (ingest_cases _) as [pop1|e]; [|done]. cbn.
  rewrite (ingest_vacc_filter pop1 (file_lines v')) by apply file_lines_nonempty.
  rewrite (ingest_vacc_filter pop1 (file_lines v)) by apply file_lines_nonempty.
  rewrite Hv. destruct (ingest_vacc _ _) as [pop2|e]; [|done]. cbn.
  rewrite (ingest_adi_filter pop2 (file_lines a')).
  rewrite (ingest_adi_filter pop2 (file_lines a)).
  by rewrite Ha.
Qed.

Lemma case_update_idem pop zc lat lon n :
  case_update (case_update pop zc lat lon n) zc lat lon n
  = case_update pop zc lat lon n.
Proof.
  unfold case_update. rewrite lookup_insert_eq, insert_insert_eq. cbn.
  do 2 f_equal. lia.
Qed.

Lemma case_row_twice pop row :
  (case_row pop row ≫= fun p => case_row p row) = case_row pop row.
Proof.
  destruct (case_row pop row) as [pop1|e] eqn:H; [|done]. cbn.
  pose proof H as H'.
  apply case_row_Ok in H' as [[Hd ->]|(zc & lat & lon & n & Hc & Hco & Hn & ->)];
    [done|].
  rewrite (case_row_data _ _ _ _ _ _ Hc Hco Hn). by rewrite case_update_idem.
Qed.

(** X7.  A data row of the case file that is repeated right after itself
    changes nothing: the maximum and the overwritten coordinates absorb
    it.  The result is the same, the same error included. *)
Theorem repeated_case_row_harmless
        (c c' v a : str) (pre post : list str) (row : str) :
  file_lines c = pre ++ row :: post ->
  file_lines c' = pre ++ row :: row :: post ->
  process_chicago c' v a = process_chicago c v a.
Proof.
  intros Hc Hc'. unfold process_chicago, ingest_cases.
  rewrite Hc, Hc', !for_each_app.
  destruct (for_each case_row ∅ pre) as [pop0|e]; [|done]. cbn.
  destruct (case_row pop0 row) as [pop1|e] eqn:H1; [|done]. cbn.
  pose proof (case_row_twice pop0 row) as Ht. rewrite H1 in Ht. cbn in Ht.
  by rewrite Ht.
Qed.

Lemma sorted_keys_same_dom {V W} (d : gmap Z V) (d' : gmap Z W) :
  (forall zc, is_Some (d !! zc) <-> is_Some (d' !! zc)) ->
  sorted_keys d = sorted_keys d'.
Proof.
  intros H. apply (StronglySorted_unique Z.le).
  - apply StronglySorted_merge_sort; apply _.
  - apply StronglySorted_merge_sort; apply _.
  - apply NoDup_Permutation; [apply NoDup_sorted_keys..|].
    intros zc. by rewrite !elem_of_sorted_keys.
Qed.

(** X8.  Which file a column comes from.  In two runs on the same case
    file the id, name, lat, lon and pop columns are the same, whatever
    the vaccination and ADI files hold; the vacc column is the same when
    the vaccination file is, and the adi column when the ADI file is. *)
Theorem columns_depend_on_their_file
        (c v a v' a' out fac out' fac' : str) :
  process_chicago c v a = Ok (out, fac) ->
  process_chicago c v' a' = Ok (out', fac') ->
  int_column 0 out' = int_column 0 out /\
  int_column 1 out' = int_column 1 out /\
  forall zc, zc ∈ case_codes (file_lines c) ->
    out_field out' zc 2 = out_field out zc 2 /\
    out_field out' zc 3 = out_field out zc 3 /\
    out_field out' zc 4 = out_field out zc 4 /\
    (v' = v -> out_field out' zc 5 = out_field out zc 5) /\
    (a' = a -> out_field out' zc 6 = out_field out zc 6).
Proof.
  intros H H'.
  assert (int_column 0 out' = int_column 0 out /\
          int_column 1 out' = int_column 1 out) as [H0 Hn].
  { pose proof H as R. pose proof H' as R'.
    apply run_inv in R as (pop & Hdom & _ & -> & _).
    apply run_inv in R' as (pop' & Hdom' & _ & -> & _).
    assert (sorted_keys pop' = sorted_keys pop) as Hk.
    { apply sorted_keys_same_dom. intros zc. by rewrite Hdom, Hdom'. }
    set (E := fun zc => default new_entry (pop !! zc)).
    set (E' := fun zc => default new_entry (pop' !! zc)).
    rewrite (int_column_ids E' (sorted_keys pop')) by apply data_rows_pop_lines.
    rewrite (int_column_ids E (sorted_keys pop)) by apply data_rows_pop_lines.
    rewrite (int_column_codes E' (sorted_keys pop')) by apply data_rows_pop_lines.
    rewrite (int_column_codes E (sorted_keys pop)) by apply data_rows_pop_lines.
    by rewrite Hk. }
  split; [done|]. split; [done|]. intros zc Hin.
  destruct (run_fields _ _ _ _ _ _ H Hin)
    as (e & ((lat & lon & Hl & Hlat & Hlon) & Hp & Hv & Ha) & Hf).
  destruct (run_fields _ _ _ _ _ _ H' Hin)
    as (e' & ((lat' & lon' & Hl' & Hlat' & Hlon') & Hp' & Hv' & Ha') & Hf').
  rewrite Hl in Hl'. injection Hl' as <- <-.
  rewrite (Hf 1%nat), (Hf' 1%nat), (Hf 2%nat), (Hf' 2%nat), (Hf 3%nat), (Hf' 3%nat),
    (Hf 4%nat), (Hf' 4%nat), (Hf 5%nat), (Hf' 5%nat). cbn.
  rewrite Hlat, Hlat', Hlon, Hlon', Hp, Hp', Hv, Hv'.
  split; [done|]. split; [done|]. split; [done|]. split.
  - by intros ->.
  - intros ->. destruct (adi_values zc (file_lines a)).
    + by rewrite Ha, Ha'.
    + destruct Ha as (x & Hx & ->). destruct Ha' as (x' & Hx' & ->).
      rewrite Hx in Hx'. by injection Hx' as <-.
Qed.

(** X9.  A case file without a data row gives a population file that
    holds the header line and nothing else. *)
Theorem no_data_rows_header_only (c v a out fac : str) :
  process_chicago c v a = Ok (out, fac) ->
  case_codes (file_lines c) = [] ->
  out = POP_HEADER /\ fac = FAC_HEADER.
Proof.
  intros H Hc. apply run_inv in H as (pop & Hdom & _ & -> & ->).
  split; [|done].
  assert (sorted_keys pop = []) as ->.
  { destruct (sorted_keys pop) as [|zc l] eqn:E; [done|]. exfalso.
    assert (zc ∈ sorted_keys pop) as Hin by (rewrite E; by left).
    apply elem_of_sorted_keys, Hdom in Hin. rewrite Hc in Hin.
    by apply elem_of_nil in Hin. }
  apply app_nil_r.
Qed.

Lemma remove_char_idem c (s : str) :
  remove_char c (remove_char c s) = remove_char c s.
Proof.
  unfold remove_char. induction s as [|d s IH]; [done|]. cbn.
  destruct (negb (ascii_eqb d c)) eqn:E; cbn; [rewrite E; by f_equal|done].
Qed.

Lemma adi_row_unquoted pop adi line :
  adi_row pop adi (remove_char QUOTE line) = adi_row pop adi line.
Proof. unfold adi_row. by rewrite remove_char_idem. Qed.

Lemma for_each_map {S A} (body : S -> A -> result S) (f : A -> A) l :
  (forall s a, body s (f a) = body s a) ->
  forall st, for_each body st (map f l) = for_each body st l.
Proof.
  intros Hf. induction l as [|a l IH]; intros st; [done|]. cbn.
  rewrite Hf. destruct (body st a); cbn; [apply IH|done].
Qed.

(** X10.  The quote characters of the ADI file do not matter, wherever
    they stand: two ADI files whose lines are the same once the quotes
    are taken out give the same result, the same error included. *)
Theorem adi_quotes_ignored (c v a a' : str) :
  map (remove_char QUOTE) (file_lines a')
  = map (remove_char QUOTE) (file_lines a) ->
  process_chicago c v a' = process_chicago c v a.
Proof.
  intros H. unfold process_chicago.
  destruct (ingest_cases _) as [pop1|e]; [|done]. cbn.
  destruct (ingest_vacc _ _) as [pop2|e]; [|done]. cbn.
  assert (forall lines, ingest_adi pop2 (map (remove_char QUOTE) lines)
                        = ingest_adi pop2 lines) as Hq.
  { intros lines. unfold ingest_adi. f_equal.
    apply for_each_map. intros s l. apply adi_row_unquoted. }
  by rewrite <- (Hq (file_lines a')), <- (Hq (file_lines a)), H.
Qed.

(** ** Files *)

Lemma write_fresh path s (fs : gmap string str) :
  write path s (<[path := []]> fs) = <[path := s]> fs.
Proof. unfold write. by rewrite lookup_insert_eq, insert_insert_eq. Qed.

Lemma write_append path s t (fs : gmap string str) :
  write path t (<[path := s]> fs) = <[path := s ++ t]> fs.
Proof. unfold write. by rewrite lookup_insert_eq, insert_insert_eq. Qed.

Lemma write_rows_pop_lines pop sk path : forall i s (fs : gmap string str) body,
  pop_lines pop i sk = Ok body ->
  write_rows pop i sk path (<[path := s]> fs) = Finished (<[path := s ++ body]> fs).
Proof.
  induction sk as [|zc sk IH]; intros i s fs body H; cbn in H.
  - injection H as <-. cbn. by rewrite app_nil_r.
  - apply bind_Ok in H as (e & He & H). apply bind_Ok in H as (rest & Hr & H).
    injection H as <-. cbn. rewrite He, write_append.
    rewrite (IH _ _ _ _ Hr). by rewrite <- app_assoc.
Qed.

Lemma sorted_pop_lines_total (pop : gmap Z entry) :
  exists body, pop_lines pop 0 (sorted_keys pop) = Ok body.
Proof.
  apply pop_lines_total, Forall_forall. intros zc. apply elem_of_sorted_keys.
Qed.

Lemma files_run_ok (popfile facfile : string) (fs : gmap string str)
      (c v a out fac : str) :
  fs !! case_path = Some c -> fs !! vacc_path = Some v ->
  fs !! adi_path = Some a ->
  process_chicago c v a = Ok (out, fac) ->
  process_chicago_files popfile facfile fs
  = Finished (<[facfile := fac]> (<[popfile := out]> fs)).
Proof.
  intros Hc Hv Ha H. unfold process_chicago in H.
  apply bind_Ok in H as (pop1 & H1 & H).
  apply bind_Ok in H as (pop2 & H2 & H).
  apply bind_Ok in H as (pop3 & H3 & H).
  apply bind_Ok in H as (body & Hb & H). injection H as <- <-.
  unfold process_chicago_files. rewrite Hc, H1, Hv, H2, Ha, H3.
  rewrite write_fresh, (write_rows_pop_lines _ _ _ _ _ _ _ Hb), write_fresh.
  done.
Qed.


Lemma files_finished (popfile facfile : string) (fs fs' : gmap string str) :
  process_chicago_files popfile facfile fs = Finished fs' ->
  exists c v a out,
    fs !! case_path = Some c /\ fs !! vacc_path = Some v /\
    fs !! adi_path = Some a /\
    process_chicago c v a = Ok (out, FAC_HEADER) /\
    fs' = <[facfile := FAC_HEADER]> (<[popfile := out]> fs).
Proof.
  unfold process_chicago_files. intros H.
  destruct (fs !! case_path) as [c|]; [|done].
  destruct (ingest_cases _) as [pop1|e1] eqn:H1; [|done].
  destruct (fs !! vacc_path) as [v|]; [|done].
  destruct (ingest_vacc _ _) as [pop2|e2] eqn:H2; [|done].
  destruct (fs !! adi_path) as [a|]; [|done].
  destruct (ingest_adi _ _) as [pop3|e3] eqn:H3; [|done].
  destruct (sorted_pop_lines_total pop3) as [body Hb].
  rewrite write_fresh, (write_rows_pop_lines _ _ _ _ _ _ _ Hb), write_fresh in H.
  injection H as <-. exists c, v, a, (POP_HEADER ++ body).
  repeat (split; [done|]). split; [|done].
  unfold process_chicago. rewrite H1. cbn. rewrite H2. cbn. rewrite H3. cbn.
  by rewrite Hb.
Qed.





Lemma santa_clara_files_eq (popfile facfile : string) (fs : gmap string str) :
  process_santa_clara_files popfile facfile fs
  = Finished (<[facfile := FAC_HEADER]> (<[popfile := POP_HEADER]> fs)).
Proof. unfold process_santa_clara_files. by rewrite !write_fresh. Qed.

Lemma main_finished (fs fs' : gmap string str) :
  main fs = Finished fs' ->
  exists c v a out,
    fs !! case_path = Some c /\ fs !! vacc_path = Some v /\
    fs !! adi_path = Some a /\
    process_chicago c v a = Ok (out, FAC_HEADER) /\
    fs' = <["santa_clara_fac.tsv"%string := FAC_HEADER]>
            (<["santa_clara_pop.tsv"%string := POP_HEADER]>
               (<["chicago_fac.tsv"%string := FAC_HEADER]>
                  (<["chicago_pop.tsv"%string := out]> fs))).
Proof.
  unfold main. intros H.
  destruct (process_chicago_files _ _ fs) as [fs1|e fs1] eqn:H1; [|done].
  apply files_finished in H1 as (c & v & a & out & Hc & Hv & Ha & Hr & ->).
  rewrite santa_clara_files_eq in H. injection H as <-.
  exists c, v, a, out. done.
Qed.


(** X15.  Running the module again on the files it has left behind
    changes nothing: the source files are not among the output files, so
    the second run reads what the first read and writes what it wrote. *)
Theorem main_idempotent (fs fs' : gmap string str) :
  main fs = Finished fs' -> main fs' = Finished fs'.
Proof.
  intros H.
  apply main_finished in H as (c & v & a & out & Hc & Hv & Ha & Hr & ->).
  unfold main.
  rewrite (files_run_ok _ _ _ c v a out FAC_HEADER); [| | | |done].
  - rewrite santa_clara_files_eq. f_equal.
    apply map_eq. intros q.
    destruct (decide (q = "santa_clara_fac.tsv"%string)) as [->|N1];
      [by rewrite !lookup_insert_eq|].
    rewrite !(lookup_insert_ne _ "santa_clara_fac.tsv"%string) by done.
    destruct (decide (q = "santa_clara_pop.tsv"%string)) as [->|N2];
      [by rewrite !lookup_insert_eq|].
    rewrite !(lookup_insert_ne _ "santa_clara_pop.tsv"%string) by done.
    destruct (decide (q = "chicago_fac.tsv"%string)) as [->|N3];
      [by rewrite !lookup_insert_eq|].
    rewrite !(lookup_insert_ne _ "chicago_fac.tsv"%string) by done.
    destruct (decide (q = "chicago_pop.tsv"%string)) as [->|N4];
      [by rewrite !lookup_insert_eq|].
    by rewrite !lookup_insert_ne by done.
  - by rewrite !lookup_insert_ne.
  - by rewrite !lookup_insert_ne.
  - by rewrite !lookup_insert_ne.
Qed.

(** ** The further properties at the sample inputs *)

Lemma point_to_coords_outcomes_sample :
  point_to_coords (txt "POINT EMPTY") = Err IndexError.
Proof.
  apply (proj2 (point_to_coords_outcomes (txt "POINT EMPTY"))).
  vm_compute. repeat constructor.
Defined.


Lemma vacc_and_adi_order_irrelevant_sample :
  (file_lines sample_vacc_reordered ≡ₚ file_lines sample_vacc /\
   file_lines sample_adi_reordered ≡ₚ file_lines sample_adi /\
   process_chicago sample_case sample_vacc sample_adi
   = Ok (sample_pop_out, FAC_HEADER)) /\
  process_chicago sample_case sample_vacc_reordered sample_adi_reordered
  = Ok (sample_pop_out, FAC_HEADER).
Proof.
  assert (file_lines sample_vacc_reordered ≡ₚ file_lines sample_vacc) as Hv
      by (vm_compute; apply perm_swap).
  assert (file_lines sample_adi_reordered ≡ₚ file_lines sample_adi) as Ha
      by (vm_compute; apply perm_swap).
  split; [split; [exact Hv|split; [exact Ha|vm_compute; reflexivity]]|].
  apply (vacc_and_adi_order_irrelevant sample_case sample_vacc sample_adi
           sample_vacc_reordered sample_adi_reordered
           (sample_pop_out, FAC_HEADER) Hv Ha).
  vm_compute. reflexivity.
Defined.

Lemma comment_lines_ignored_sample :
  process_chicago sample_case_commented sample_vacc sample_adi
  = process_chicago sample_case sample_vacc sample_adi.
Proof.
  apply (comment_lines_ignored sample_case sample_case_commented
           sample_vacc sample_vacc sample_adi sample_adi);
    vm_compute; reflexivity.
Defined.

Lemma repeated_case_row_harmless_sample :
  process_chicago sample_case_repeated sample_vacc sample_adi
  = process_chicago sample_case sample_vacc sample_adi.
Proof.
  apply (repeated_case_row_harmless sample_case sample_case_repeated
           sample_vacc sample_adi
           [txt "ZIP Code,Week Number,Week Start" ++ [NL];
            txt "60601,a,b,c,d,e,f,g,h,i,j,k,l,m,n,o,p,q,18,POINT (-87.62 41.88)"
              ++ [NL]]
           [txt "60601,a,b,c,d,e,f,g,h,i,j,k,l,m,n,o,p,q,5,POINT (-87.5 41.5)"
              ++ [NL]]
           (txt "60602,a,b,c,d,e,f,g,h,i,j,k,l,m,n,o,p,q,7,r,POINT (-87.7 41.9)"
              ++ [NL]));
    vm_compute; reflexivity.
Defined.

Lemma columns_depend_on_their_file_sample :
  exists out' : str,
    (process_chicago sample_case sample_vacc sample_adi
     = Ok (sample_pop_out, FAC_HEADER) /\
     process_chicago sample_case [] [] = Ok (out', FAC_HEADER)) /\
    int_column 0 out' = int_column 0 sample_pop_out /\
    int_column 1 out' = int_column 1 sample_pop_out.
Proof.
  eexists. split; [split; vm_compute; reflexivity|].
  destruct (columns_depend_on_their_file sample_case sample_vacc sample_adi
              [] [] sample_pop_out FAC_HEADER
              (POP_HEADER
                 ++ txt "0" ++ [TAB] ++ txt "60601" ++ [TAB] ++ txt "41.5"
                 ++ [TAB] ++ txt "-87.5" ++ [TAB] ++ txt "18" ++ [TAB]
                 ++ txt "0" ++ [TAB] ++ txt "0" ++ [TAB] ++ [NL]
                 ++ txt "1" ++ [TAB] ++ txt "60602" ++ [TAB] ++ txt "41.9"
                 ++ [TAB] ++ txt "-87.7" ++ [TAB] ++ txt "7" ++ [TAB]
                 ++ txt "0" ++ [TAB] ++ txt "0" ++ [TAB] ++ [NL])
              FAC_HEADER) as (H0 & H1 & _).
  - vm_compute. reflexivity.
  - vm_compute. reflexivity.
  - split; [exact H0|exact H1].
Defined.

Lemma no_data_rows_header_only_sample :
  exists out fac : str,
    (process_chicago (txt "ZIP Code,Week Number" ++ [NL])
                     (txt "Zip Code,Date" ++ [NL]) sample_adi
     = Ok (out, fac) /\
     case_codes (file_lines (txt "ZIP Code,Week Number" ++ [NL])) = []) /\
    out = POP_HEADER /\ fac = FAC_HEADER.
Proof.
  exists POP_HEADER, FAC_HEADER.
  split; [split; vm_compute; reflexivity|].
  apply (no_data_rows_header_only (txt "ZIP Code,Week Number" ++ [NL])
           (txt "Zip Code,Date" ++ [NL]) sample_adi POP_HEADER FAC_HEADER);
    vm_compute; reflexivity.
Defined.

Lemma adi_quotes_ignored_sample :
  process_chicago sample_case sample_vacc (remove_char QUOTE sample_adi)
  = process_chicago sample_case sample_vacc sample_adi.
Proof.
  apply (adi_quotes_ignored sample_case sample_vacc sample_adi
           (remove_char QUOTE sample_adi)).
  vm_compute. reflexivity.
Defined.




Lemma main_idempotent_sample :
  main sample_fs = Finished sample_fs_after /\
  main sample_fs_after = Finished sample_fs_after.
Proof.
  split; [vm_compute; reflexivity|].
  apply (main_idempotent sample_fs sample_fs_after).
  vm_compute. reflexivity.
Defined.
